(** * PointCloud::ransac and PointCloud::ransacMultiple (a1/src/PointCloud.cpp)

  A shallow embedding of the two RANSAC routines of the point cloud class,
  with the point store as explicit state.

  - A [Point *] is the index of the point inside [points]; every pointer
    the routines handle comes from [&points[i]].
  - The routines run in a state-and-failure monad over the point cloud:
    [None] stands for undefined behaviour of the C++ program (indexing a
    vector out of range, a distribution built with a > b, overflow of the
    [int] loop counter).
  - [std::mt19937] seeded from [std::random_device] is a tape of raw
    outputs, one tape per call of [ransac].
  - Geometry that lives outside PointCloud.cpp (vectors, planes, the slab
    membership test, the display corners) is an interface, [Geometry]. *)

From stdpp Require Import base numbers option strings list.

Set Default Proof Using "Type".

(** ** Geometry collaborators *)

(** The types and operations of DGP and of Slab.hpp that PointCloud.cpp
    only calls.  Nothing is assumed about them. *)
Class Geometry := {
  Vector3 : Type;
  Real : Type;
  Plane3 : Type;
  AxisAlignedBox3 : Type;
  Corners : Type;
  (** [Plane3::fromThreePoints] *)
  fromThreePoints : Vector3 → Vector3 → Vector3 → Plane3;
  (** whether three positions lie on one line *)
  collinear : Vector3 → Vector3 → Vector3 → bool;
  (** the membership test of a slab: plane, thickness, position *)
  slab_contains : Plane3 → Real → Vector3 → bool;
  (** what [Slab::updateCorners] computes from the plane and the positions
      of the points it is given *)
  slab_extent : Plane3 → list Vector3 → Corners;
  (** the members of a default-constructed [Slab] *)
  default_plane : Plane3;
  default_thickness : Real;
  default_corners : Corners
}.

(** ** Machine integers *)

Module Machine.

Definition INT_MAX : Z := 2 ^ 31 - 1.

(** [size_t] arithmetic is modulo 2^64. *)
Definition size_t_sub (a b : Z) : Z := ((a - b) `mod` 2 ^ 64)%Z.

(** Narrowing to [int] keeps the low 32 bits, two's complement. *)
Definition to_int (z : Z) : Z := ((z + 2 ^ 31) `mod` 2 ^ 32 - 2 ^ 31)%Z.

End Machine.

Section PointCloud.

Context `{G : Geometry}.

(** ** Data model *)

Record Point := mkPoint {
  position : Vector3;
  normal : Vector3;
  enabled : bool
}.

Definition setEnabledFlag (b : bool) (p : Point) : Point :=
  {| position := position p; normal := normal p; enabled := b |}.

Record Slab := mkSlab {
  plane : Plane3;
  thickness : Real;
  corners : Corners
}.

(** [Slab()] *)
Definition Slab_default : Slab :=
  {| plane := default_plane; thickness := default_thickness;
     corners := default_corners |}.

(** [Slab(plane, thickness)] *)
Definition Slab_make (pl : Plane3) (th : Real) : Slab :=
  {| plane := pl; thickness := th; corners := default_corners |}.

Record PointCloud := mkPointCloud {
  points : list Point;
  bbox : AxisAlignedBox3
}.

(** A [Point *] into [points]. *)
Abbreviation ptr := nat (only parsing).

(** ** The monad: state passing over the cloud, [None] is undefined
    behaviour *)

Definition M (A : Type) : Type := PointCloud → option (A * PointCloud).

Definition ret {A} (a : A) : M A := λ pc, Some (a, pc).

Definition bind {A B} (m : M A) (k : A → M B) : M B :=
  λ pc, match m pc with
        | Some (a, pc') => k a pc'
        | None => None
        end.

Definition undefined {A} : M A := λ _, None.

Notation "x <~ m ;; k" := (bind m (λ x, k))
  (at level 100, m at next level, right associativity).

(** [points.size()] *)
Definition points_size : M nat := λ pc, Some (length (points pc), pc).

(** Reading through [points[i]] or through a pointer. *)
Definition point_at (i : ptr) : M Point :=
  λ pc, match points pc !! i with
        | Some p => Some (p, pc)
        | None => None
        end.

(** [points[i].setEnabled(b)], [p->setEnabled(b)] *)
Definition setEnabled (i : ptr) (b : bool) : M unit :=
  λ pc, match points pc !! i with
        | Some p =>
            Some (tt, {| points := <[i := setEnabledFlag b p]> (points pc);
                         bbox := bbox pc |})
        | None => None
        end.

(** [v[i]] on a local vector. *)
Definition at_index {A} (v : list A) (i : Z) : M A :=
  if (i <? 0)%Z then undefined
  else match v !! Z.to_nat i with
       | Some a => ret a
       | None => undefined
       end.

(** ** The spatial index and the slab operations ransac calls *)

(** [Slab::contains]: membership depends on the plane and the thickness,
    never on the display corners. *)
Definition Slab_contains (s : Slab) (v : Vector3) : bool :=
  slab_contains (plane s) (thickness s) v.

(** Modelled from the spec: PointKDTree (PointKDTree.hpp is not under
    src/).  Section 4.1: the index stores references to the points it was
    built from and never copies them; it is read-only after construction. *)
Record PointKDTree := mkPointKDTree { indexed : list ptr }.

(** Modelled from the spec: the constructor of PointKDTree, spec Build. *)
Definition PointKDTree_build (pp : list ptr) : PointKDTree :=
  {| indexed := pp |}.

(** Modelled from the spec: PointKDTree::rangeQuery, spec RangeQuery.  It
    returns exactly the indexed points inside the slab, each once,
    reading their positions through the stored pointers. *)
Fixpoint rangeQuery_from (s : Slab) (ps out : list ptr) : M (list ptr) :=
  match ps with
  | [] => ret out
  | p :: ps' =>
      pt <~ point_at p ;;
      rangeQuery_from s ps'
        (if Slab_contains s (position pt) then out ++ [p] else out)
  end.

Definition rangeQuery (kdt : PointKDTree) (s : Slab) (out : list ptr)
  : M (list ptr) :=
  rangeQuery_from s (indexed kdt) out.

Fixpoint positions_of (ps : list ptr) : M (list Vector3) :=
  match ps with
  | [] => ret []
  | p :: ps' =>
      pt <~ point_at p ;;
      vs <~ positions_of ps' ;;
      ret (position pt :: vs)
  end.

(** Modelled from the spec: Slab::updateCorners (Slab.hpp is not under
    src/).  Section 4.2: a function of the plane and the inlier set that
    sets the display corners and nothing else. *)
Definition updateCorners (s : Slab) (ps : list ptr) : M Slab :=
  vs <~ positions_of ps ;;
  ret {| plane := plane s; thickness := thickness s;
         corners := slab_extent (plane s) vs |}.

(** ** Random sampling *)

(** [std::uniform_int_distribution<int>]; its constructor requires
    a <= b. *)
Record uniform_int := mkUniform { uni_a : Z; uni_b : Z }.

Definition uniform_int_distribution (a b : Z) : M uniform_int :=
  if (a <=? b)%Z then ret {| uni_a := a; uni_b := b |} else undefined.

(** [uni(rng)]: one output of the generator, mapped into [a, b].  Every
    sequence of values in [a, b] is the sequence of draws of some tape. *)
Definition draw (u : uniform_int) (tape : nat → Z) (cur : nat) : Z * nat :=
  ((uni_a u + tape cur `mod` (uni_b u - uni_a u + 1))%Z, S cur).

(** [pp[uni(rng)]->getPosition()] *)
Definition sample_position (pp : list ptr) (u : uniform_int)
    (tape : nat → Z) (cur : nat) : M (Vector3 * nat) :=
  p <~ at_index pp (draw u tape cur).1 ;;
  pt <~ point_at p ;;
  ret (position pt, (draw u tape cur).2).

(** ** PointCloud::ransac *)

(** The variables the loop of ransac updates. *)
Record search := mkSearch {
  maxPoints : Z;
  slab : Slab;
  slab_points : list ptr;
  (** how many outputs of [rng] have been consumed *)
  rng : nat;
  (** ghost: numPoints of every candidate examined so far, oldest first *)
  tried : list Z
}.

(** [long maxPoints = 0] and the two reference arguments as passed; the
    generator is fresh. *)
Definition initial_search (slab0 : Slab) (slab_points0 : list ptr) : search :=
  {| maxPoints := 0; slab := slab0; slab_points := slab_points0;
     rng := 0; tried := [] |}.

(** How a pass through the body ends: at the end of the body, or at
    [return 0]. *)
Inductive iteration := Continue (st : search) | Return (r : Z).

(** Lines 211-235: one pass through the body of the loop.  C++ leaves the
    order of the three draws open; they are taken here in the order the
    arguments are written. *)
Definition ransac_body (kdt : PointKDTree) (pp : list ptr) (tape : nat → Z)
    (slab_thickness : Real) (min_points : Z) (st : search) : M iteration :=
  if decide (length pp = 0) then ret (Return 0)
  else
    uni <~ uniform_int_distribution 0
             (Machine.to_int (Machine.size_t_sub (Z.of_nat (length pp)) 1)) ;;
    a <~ sample_position pp uni tape (rng st) ;;
    b <~ sample_position pp uni tape a.2 ;;
    c <~ sample_position pp uni tape b.2 ;;
    let plane := fromThreePoints a.1 b.1 c.1 in
    let localSlab := Slab_make plane slab_thickness in
    localPoints <~ rangeQuery kdt localSlab [] ;;
    let numPoints := Z.of_nat (length localPoints) in
    if (min_points <? numPoints)%Z && (maxPoints st <? numPoints)%Z then
      slab' <~ updateCorners localSlab localPoints ;;
      ret (Continue {| maxPoints := numPoints; slab := slab';
                       slab_points := localPoints; rng := c.2;
                       tried := tried st ++ [numPoints] |})
    else
      ret (Continue {| maxPoints := maxPoints st; slab := slab st;
                       slab_points := slab_points st; rng := c.2;
                       tried := tried st ++ [numPoints] |}).

(** Lines 209-237: [for (int i = 0; i < num_iters; i++)], with [n] passes
    left to run; incrementing the [int] counter past INT_MAX is undefined. *)
Fixpoint ransac_loop (kdt : PointKDTree) (pp : list ptr) (tape : nat → Z)
    (slab_thickness : Real) (min_points : Z) (n : nat) (i : Z) (st : search)
  : M (Z * search) :=
  match n with
  | O => ret (maxPoints st, st)
  | S n' =>
      r <~ ransac_body kdt pp tape slab_thickness min_points st ;;
      match r with
      | Return z => ret (z, st)
      | Continue st' =>
          if (i <? Machine.INT_MAX)%Z
          then ransac_loop kdt pp tape slab_thickness min_points n' (i + 1) st'
          else undefined
      end
  end.

(** Lines 191-198: collect pointers to the enabled points, [n] points left
    to visit from index [i]. *)
Fixpoint gather_enabled (n : nat) (i : nat) (pp : list ptr) : M (list ptr) :=
  match n with
  | O => ret pp
  | S n' =>
      p <~ point_at i ;;
      gather_enabled n' (S i) (if enabled p then pp ++ [i] else pp)
  end.

(** ransac with its ghost record of candidates. *)
Definition ransac_run (tape : nat → Z) (num_iters : Z) (slab_thickness : Real)
    (min_points : Z) (slab0 : Slab) (slab_points0 : list ptr)
  : M (Z * search) :=
  n <~ points_size ;;
  pp <~ gather_enabled n 0 [] ;;
  ransac_loop (PointKDTree_build pp) pp tape slab_thickness min_points
    (Z.to_nat num_iters) 0 (initial_search slab0 slab_points0).

(** [long ransac(num_iters, slab_thickness, min_points, slab, slab_points)]:
    the return value and the two reference arguments on return. *)
Definition ransac (tape : nat → Z) (num_iters : Z) (slab_thickness : Real)
    (min_points : Z) (slab0 : Slab) (slab_points0 : list ptr)
  : M (Z * Slab * list ptr) :=
  r <~ ransac_run tape num_iters slab_thickness min_points slab0 slab_points0 ;;
  ret (r.1, slab r.2, slab_points r.2).

(** ** PointCloud::ransacMultiple *)

(** [v.clear()] *)
Definition clear {A} (v : list A) : list A := [].

(** Lines 244-245. *)
Fixpoint enable_all (n : nat) (i : nat) : M unit :=
  match n with
  | O => ret tt
  | S n' => _ <~ setEnabled i true ;; enable_all n' (S i)
  end.

(** Lines 260-261. *)
Fixpoint disable_points (ps : list ptr) : M unit :=
  match ps with
  | [] => ret tt
  | p :: ps' => _ <~ setEnabled p false ;; disable_points ps'
  end.

(** Ghost: what one round of the extraction loop saw. *)
Record round := mkRound {
  r_count : Z;
  r_slab : Slab;
  r_points : list ptr;
  r_tried : list Z
}.

(** The entry of a round whose call of ransac returned [k] and left the
    loop variables [st]. *)
Definition round_of (k : Z) (st : search) : round :=
  {| r_count := k; r_slab := slab st; r_points := slab_points st;
     r_tried := tried st |}.

Definition accepted (r : round) : bool := (0 <? r_count r)%Z.

(** Lines 248-262, with [n] rounds left to run and [i] the round number.
    [log] is ghost: one entry per round run, the last one included. *)
Fixpoint extract_loop (tapes : nat → nat → Z) (num_iters : Z)
    (slab_thickness : Real) (min_points : Z) (n : nat) (i : nat)
    (slabs : list Slab) (log : list round) : M (list Slab * list round) :=
  match n with
  | O => ret (slabs, log)
  | S n' =>
      r <~ ransac_run (tapes i) num_iters slab_thickness min_points
             Slab_default [] ;;
      let num_matching_pts := r.1 in
      let entry := round_of num_matching_pts r.2 in
      if (num_matching_pts <=? 0)%Z then ret (slabs, log ++ [entry])
      else
        _ <~ disable_points (slab_points r.2) ;;
        extract_loop tapes num_iters slab_thickness min_points n' (S i)
          (slabs ++ [slab r.2]) (log ++ [entry])
  end.

(** ransacMultiple with its ghost log of rounds. *)
Definition ransacMultiple_run (tapes : nat → nat → Z) (num_planes num_iters : Z)
    (slab_thickness : Real) (min_points : Z) (slabs : list Slab)
  : M (Z * list Slab * list round) :=
  n <~ points_size ;;
  _ <~ enable_all n 0 ;;
  r <~ extract_loop tapes num_iters slab_thickness min_points
         (Z.to_nat num_planes) 0 (clear slabs) [] ;;
  ret (Z.of_nat (length r.1), r.1, r.2).

(** [long ransacMultiple(num_planes, num_iters, slab_thickness, min_points,
    slabs)]: the return value and [slabs] on return. *)
Definition ransacMultiple (tapes : nat → nat → Z) (num_planes num_iters : Z)
    (slab_thickness : Real) (min_points : Z) (slabs : list Slab)
  : M (Z * list Slab) :=
  r <~ ransacMultiple_run tapes num_planes num_iters slab_thickness
         min_points slabs ;;
  ret (r.1.1, r.1.2).

(** ** Vocabulary of the statements *)

(** Whether the pointer [i] designates an enabled point of [pts]. *)
Definition is_enabled (pts : list Point) (i : ptr) : bool :=
  match pts !! i with
  | Some p => enabled p
  | None => false
  end.

(** The pointers to the enabled points, in storage order. *)
Definition enabled_ptrs (pts : list Point) : list ptr :=
  filter (λ i, is_enabled pts i) (seq 0 (length pts)).

(** Whether the point behind [p] passes the membership test of [s]. *)
Definition inside (pts : list Point) (s : Slab) (p : ptr) : bool :=
  match pts !! p with
  | Some pt => Slab_contains s (position pt)
  | None => false
  end.

(** The range-query answer of [s] against the pointers [ps]. *)
Definition inliers (pts : list Point) (s : Slab) (ps : list ptr) : list ptr :=
  filter (λ p, inside pts s p) ps.

(** The positions behind a list of pointers. *)
Definition positions (pts : list Point) (ps : list ptr) : list Vector3 :=
  omap (λ p, position <$> pts !! p) ps.

(** The distribution line 213 builds over the indices of [pp]. *)
Definition index_distribution (pp : list ptr) : uniform_int :=
  {| uni_a := 0;
     uni_b := Machine.to_int (Machine.size_t_sub (Z.of_nat (length pp)) 1) |}.

(** The position that distribution picks from [pp] at tape position [cur]. *)
Definition picked (pts : list Point) (pp : list ptr) (tape : nat → Z)
    (cur : nat) : option Vector3 :=
  p ← pp !! Z.to_nat (draw (index_distribution pp) tape cur).1;
  position <$> pts !! p.

(** The slab an iteration builds through three positions. *)
Definition candidate_slab (slab_thickness : Real) (a b c : Vector3) : Slab :=
  Slab_make (fromThreePoints a b c) slab_thickness.

(** The loop variables after an iteration that sampled [a], [b], [c]. *)
Definition next_search (pts : list Point) (kdt : PointKDTree)
    (slab_thickness : Real) (min_points : Z) (a b c : Vector3) (st : search)
  : search :=
  let found := inliers pts (candidate_slab slab_thickness a b c) (indexed kdt) in
  let numPoints := Z.of_nat (length found) in
  if (min_points <? numPoints)%Z && (maxPoints st <? numPoints)%Z then
    {| maxPoints := numPoints;
       slab := {| plane := fromThreePoints a b c; thickness := slab_thickness;
                  corners := slab_extent (fromThreePoints a b c)
                               (positions pts found) |};
       slab_points := found;
       rng := S (S (S (rng st)));
       tried := tried st ++ [numPoints] |}
  else
    {| maxPoints := maxPoints st; slab := slab st;
       slab_points := slab_points st;
       rng := S (S (S (rng st)));
       tried := tried st ++ [numPoints] |}.

(** What holds of the loop variables between iterations: either nothing has
    been accepted and the arguments are as the caller passed them, or the
    best slab so far goes through three sampled positions and is recorded
    with its support among [pp]. *)
Definition search_inv (pts : list Point) (pp : list ptr) (tape : nat → Z)
    (slab_thickness : Real) (min_points : Z) (slab0 : Slab)
    (slab_points0 : list ptr) (st : search) : Prop :=
  (0 ≤ maxPoints st)%Z ∧
  Forall (λ n, (0 ≤ n)%Z ∧ ((min_points < n)%Z → (n ≤ maxPoints st)%Z))
    (tried st) ∧
  ((maxPoints st = 0%Z ∧ slab st = slab0 ∧ slab_points st = slab_points0) ∨
   ((0 < maxPoints st)%Z ∧ (min_points < maxPoints st)%Z ∧
    maxPoints st ∈ tried st ∧
    ∃ cur a b c,
      picked pts pp tape cur = Some a ∧
      picked pts pp tape (S cur) = Some b ∧
      picked pts pp tape (S (S cur)) = Some c ∧
      let found := inliers pts (candidate_slab slab_thickness a b c) pp in
      maxPoints st = Z.of_nat (length found) ∧
      slab_points st = found ∧
      slab st = {| plane := fromThreePoints a b c;
                   thickness := slab_thickness;
                   corners := slab_extent (fromThreePoints a b c)
                                (positions pts found) |})).

(** The cloud after [points[i].setEnabled(true)] for every i. *)
Definition all_enabled (pc : PointCloud) : PointCloud :=
  {| points := setEnabledFlag true <$> points pc; bbox := bbox pc |}.

(** The cloud after [p->setEnabled(false)] for every p of [ps]. *)
Definition without (ps : list ptr) (pc : PointCloud) : PointCloud :=
  {| points := imap (λ j p, if bool_decide (j ∈ ps)
                            then setEnabledFlag false p else p) (points pc);
     bbox := bbox pc |}.

(** The rounds of the extraction loop as a step relation: [n] rounds left,
    round number [i], the cloud before, the entries logged, the cloud
    after. *)
Inductive extraction (tapes : nat → nat → Z) (num_iters : Z)
    (slab_thickness : Real) (min_points : Z)
  : nat → nat → PointCloud → list round → PointCloud → Prop :=
  | extraction_done i pc :
      extraction tapes num_iters slab_thickness min_points 0 i pc [] pc
  | extraction_break n i pc k st :
      ransac_run (tapes i) num_iters slab_thickness min_points Slab_default []
        pc = Some ((k, st), pc) →
      (k ≤ 0)%Z →
      extraction tapes num_iters slab_thickness min_points (S n) i pc
        [round_of k st] pc
  | extraction_accept n i pc k st rest pc' :
      ransac_run (tapes i) num_iters slab_thickness min_points Slab_default []
        pc = Some ((k, st), pc) →
      (0 < k)%Z →
      extraction tapes num_iters slab_thickness min_points n (S i)
        (without (slab_points st) pc) rest pc' →
      extraction tapes num_iters slab_thickness min_points (S n) i pc
        (round_of k st :: rest) pc'.

(** The slabs the loop pushed, read off its log. *)
Definition pushed (log : list round) : list Slab :=
  r_slab <$> filter (λ r, accepted r) log.

(** The inlier sets of the accepted rounds, read off the log. *)
Definition inlier_sets (log : list round) : list (list ptr) :=
  r_points <$> filter (λ r, accepted r) log.

(** No pointer occurs in two of the lists. *)
Fixpoint pairwise_disjoint (ls : list (list ptr)) : Prop :=
  match ls with
  | [] => True
  | l :: ls' => Forall (λ l', ∀ p, p ∈ l → p ∉ l') ls' ∧ pairwise_disjoint ls'
  end.

(** Two clouds that differ at most in the enabled flags. *)
Definition same_geometry (pc1 pc2 : PointCloud) : Prop :=
  bbox pc1 = bbox pc2 ∧
  position <$> points pc1 = position <$> points pc2 ∧
  normal <$> points pc1 = normal <$> points pc2.

End PointCloud.

Abbreviation ptr := nat (only parsing).

Notation "x <~ m ;; k" := (bind m (λ x, k))
  (at level 100, m at next level, right associativity).

(** ** An exact instance of the geometry *)

Module Exact.

Definition V3 : Type := Z * Z * Z.

Definition sub (u v : V3) : V3 :=
  (u.1.1 - v.1.1, u.1.2 - v.1.2, u.2 - v.2)%Z.

Definition dot (u v : V3) : Z :=
  (u.1.1 * v.1.1 + u.1.2 * v.1.2 + u.2 * v.2)%Z.

Definition cross (u v : V3) : V3 :=
  (u.1.2 * v.2 - u.2 * v.1.2,
   u.2 * v.1.1 - u.1.1 * v.2,
   u.1.1 * v.1.2 - u.1.2 * v.1.1)%Z.

(** Modelled from the spec: Plane3 (DGP is not under src/).  Sections 3
    and 4.2: the result of a plane fit is either flagged as degenerate, and
    then without a normal or an offset, or the plane of every x with
    n . x = d.  The pair (n, d) stands for the unit normal n / |n| and the
    signed offset d / |n|, which the integers cannot hold. *)
Inductive plane3 := Flagged | mkPlane (pl_normal : V3) (pl_offset : Z).

(** Modelled from the spec: the flag section 4.2 puts on a degenerate
    fit. *)
Definition flagged (pl : plane3) : bool :=
  match pl with
  | Flagged => true
  | mkPlane _ _ => false
  end.

(** Modelled from the spec: the degeneracy test of section 4.2, the cross
    product of the edge vectors being zero. *)
Definition on_a_line (a b c : V3) : bool :=
  bool_decide (cross (sub b a) (sub c a) = (0, 0, 0)%Z).

(** Modelled from the spec: Plane3::fromThreePoints (DGP is not under
    src/).  Section 4.2: the plane through three points, its normal along
    the cross product of the edge vectors; for collinear points the result
    is undefined and flagged. *)
Definition through (a b c : V3) : plane3 :=
  if on_a_line a b c then Flagged
  else
    let n := cross (sub b a) (sub c a) in
    mkPlane n (dot n a).

(** Modelled from the spec: Slab::contains (Slab.hpp is not under src/).
    Section 3: perpendicular distance to the plane at most thickness / 2,
    that is |n . p - d| / |n| <= t / 2, squared to stay in the integers.
    Sections 3 and 4.2: a degenerate fit counts zero inliers, so a flagged
    plane contains no point, and neither does a zero normal, which defines
    no plane. *)
Definition within (pl : plane3) (t : Z) (p : V3) : bool :=
  match pl with
  | Flagged => false
  | mkPlane n d =>
      negb (bool_decide (n = (0, 0, 0)%Z)) &&
      (0 <=? t)%Z &&
      (4 * (dot n p - d) ^ 2 <=? t ^ 2 * dot n n)%Z
  end.

(** Display corners: the low and high corner of the box around the
    positions, [None] when there are none. *)
Definition extent (pl : plane3) (vs : list V3) : option (V3 * V3) :=
  match vs with
  | [] => None
  | v :: vs' =>
      Some (foldr (λ p lo, (p.1.1 `min` lo.1.1, p.1.2 `min` lo.1.2,
                            p.2 `min` lo.2)%Z) v vs',
            foldr (λ p hi, (p.1.1 `max` hi.1.1, p.1.2 `max` hi.1.2,
                            p.2 `max` hi.2)%Z) v vs')
  end.

Definition geometry : Geometry :=
  {| Vector3 := V3;
     Real := Z;
     Plane3 := plane3;
     AxisAlignedBox3 := unit;
     Corners := option (V3 * V3);
     fromThreePoints := through;
     collinear := on_a_line;
     slab_contains := within;
     slab_extent := extent;
     default_plane := mkPlane (0, 0, 0)%Z 0;
     default_thickness := 0%Z;
     default_corners := None |}.

(** A cloud of enabled points at the given positions. *)
Definition cloud (vs : list V3) : PointCloud (G := geometry) :=
  {| points := map (λ v, mkPoint (G := geometry) v (0, 0, 0)%Z true) vs;
     bbox := tt |}.

(** A generator whose every raw output is [z]. *)
Definition constant_tape (z : Z) : nat → Z := λ _, z.

(** A generator that cycles through [zs]. *)
Definition cyclic_tape (zs : list Z) : nat → Z :=
  λ n, default 0%Z (zs !! (n `mod` length zs)).

(** The generator used in the examples, and the same one for every round. *)
Definition tape012 : nat → Z := cyclic_tape [0; 1; 2]%Z.

Definition tapes012 : nat → nat → Z := λ _, tape012.

(** Four points of the plane z = 0 and one point off it. *)
Definition square_and_outlier : PointCloud (G := geometry) :=
  cloud [(0, 0, 0); (1, 0, 0); (0, 1, 0); (1, 1, 0); (5, 5, 5)]%Z.

(** The same cloud with the flags another extraction left behind. *)
Definition square_and_outlier_used : PointCloud (G := geometry) :=
  {| points := setEnabledFlag (G := geometry) false
                 <$> points square_and_outlier;
     bbox := tt |}.

(** The square and three points of the plane z = 5. *)
Definition square_and_triangle : PointCloud (G := geometry) :=
  cloud [(0, 0, 0); (1, 0, 0); (0, 1, 0); (1, 1, 0);
         (5, 5, 5); (6, 5, 5); (5, 6, 5)]%Z.

(** Two points: every triple drawn from them lies on a line. *)
Definition two_points : PointCloud (G := geometry) :=
  cloud [(0, 0, 0); (1, 0, 0)]%Z.

(** More enabled points than an [int] can count. *)
Definition huge : PointCloud (G := geometry) :=
  cloud (replicate (Pos.to_nat 2147483649) (0, 0, 0)%Z).

(** What one iteration finds in [square_and_outlier] when it samples the
    first three points. *)
Definition square_search : search (G := geometry) :=
  {| maxPoints := 4;
     slab := mkSlab (G := geometry)
               (mkPlane (0, 0, 1)%Z 0) 1%Z
               (Some ((0, 0, 0), (1, 1, 0))%Z);
     slab_points := [0; 1; 2; 3];
     rng := 3;
     tried := [4%Z] |}.

(** The outcome of extracting up to three planes from
    [square_and_triangle]: the square first, then the triangle. *)
Definition square_extraction
  : option (Z * list (Slab (G := geometry)) * list (round (G := geometry))
            * PointCloud (G := geometry)) :=
  Eval vm_compute in
    ransacMultiple_run (G := geometry) tapes012 3 3 1%Z 0 []
      square_and_triangle.

(** What one iteration leaves in [two_points] when it samples the first
    point three times: a count of zero and nothing recorded. *)
Definition line_search : search (G := geometry) :=
  {| maxPoints := 0;
     slab := Slab_default (G := geometry);
     slab_points := [];
     rng := 3;
     tried := [0%Z] |}.

(** The loop variables after two such iterations. *)
Definition line_searches : search (G := geometry) :=
  {| maxPoints := 0;
     slab := Slab_default (G := geometry);
     slab_points := [];
     rng := 6;
     tried := [0; 0]%Z |}.

End Exact.

(** ** The rest of the point store: construction, the box, loading *)

(** What the remaining methods of PointCloud.cpp call outside the file.
    Nothing is assumed about these operations either. *)
Class Store `{G : Geometry} := {
  (** [AxisAlignedBox3::setNull] and [AxisAlignedBox3::merge] *)
  aabb_null : AxisAlignedBox3;
  aabb_merge : AxisAlignedBox3 → Vector3 → AxisAlignedBox3;
  (** [Vector3::zero()] *)
  Vector3_zero : Vector3;
  (** the vector whose components [v[0]], [v[1]], [v[2]] were assigned the
      three values *)
  Vector3_of : Real → Real → Real → Vector3;
  (** the enabled flag the constructor [Point(p, n)] sets *)
  Point_enabled : bool;
  (** [trimWhitespace] *)
  trimWhitespace : string → string;
  (** the values a chain of [operator>>] on Real extracts from a line, in
      order, up to the first extraction that fails *)
  extract_reals : string → list Real
}.

Section Store.

Context `{St : Store}.

(** [Point(p, n)] *)
Definition Point_new (p n : Vector3) : Point :=
  {| position := p; normal := n; enabled := Point_enabled |}.

(** Lines 164-171: [PointCloud::recomputeAABB]. *)
Definition recomputeAABB (pc : PointCloud) : PointCloud :=
  {| points := points pc;
     bbox := foldl (λ box p, aabb_merge box (position p)) aabb_null
               (points pc) |}.

(** Lines 8-12: [PointCloud(points_)].  The box member is set by
    recomputeAABB whatever it was. *)
Definition PointCloud_of_points (points_ : list Point) : PointCloud :=
  recomputeAABB {| points := points_; bbox := aabb_null |}.

(** How the constructor from two arrays ends. *)
Inductive construction :=
  | Built (pc : PointCloud)
  | AssertionFailed
  | OutOfRange.

(** Lines 18-19: the loop, with [n] elements left from index [i]; reading
    either array out of range is undefined. *)
Fixpoint push_points (n i : nat) (positions normals : list Vector3)
    (pts : list Point) : option (list Point) :=
  match n with
  | O => Some pts
  | S n' =>
      match positions !! i, normals !! i with
      | Some p, Some nr =>
          push_points n' (S i) positions normals (pts ++ [Point_new p nr])
      | _, _ => None
      end
  end.

(** Lines 14-22: [PointCloud(positions, normals)]. *)
Definition PointCloud_of_arrays (positions normals : list Vector3)
  : construction :=
  if decide (length positions = length normals) then
    match push_points (length positions) 0 positions normals [] with
    | Some pts => Built (recomputeAABB {| points := pts; bbox := aabb_null |})
    | None => OutOfRange
    end
  else AssertionFailed.

(** Lines 50-62: what the body of the loop of load makes of a trimmed,
    non-empty line; [None] when fewer than three values can be read. *)
Definition read_point (line : string) : option Point :=
  match extract_reals line with
  | x :: y :: z :: more =>
      Some (Point_new (Vector3_of x y z)
              match more with
              | nx :: ny :: nz :: _ => Vector3_of nx ny nz
              | _ => Vector3_zero
              end)
  | _ => None
  end.

(** Lines 42-63: the loop of load over the lines getline yields: whether
    it ran to the end, and [points] when it stopped. *)
Fixpoint load_lines (lines : list string) (pts : list Point)
  : bool * list Point :=
  match lines with
  | [] => (true, pts)
  | l :: rest =>
      let line := trimWhitespace l in
      if String.eqb line "" then load_lines rest pts
      else match read_point line with
           | Some p => load_lines rest (pts ++ [p])
           | None => (false, pts)
           end
  end.

(** Lines 24-68: [PointCloud::load].  [file] is what the path opens:
    nothing, or the lines of the file. *)
Definition load (file : option (list string)) (pc : PointCloud)
  : bool * PointCloud :=
  match file with
  | None => (false, pc)
  | Some lines =>
      let r := load_lines lines (points pc) in
      if r.1 then (true, recomputeAABB {| points := r.2; bbox := bbox pc |})
      else (false, {| points := r.2; bbox := bbox pc |})
  end.

(** *** Vocabulary *)

(** The box of a cloud is the one recomputeAABB would give it. *)
Definition bbox_current (pc : PointCloud) : Prop :=
  bbox pc = bbox (recomputeAABB pc).

(** A line the loop of load skips. *)
Definition blank (l : string) : bool := String.eqb (trimWhitespace l) "".

(** The lines the loop of load reads a point from. *)
Definition data_lines (lines : list string) : list string :=
  filter (λ l, ¬ blank l) lines.

(** The points the data lines spell, for those that spell one. *)
Definition read_all (lines : list string) : list Point :=
  omap (λ l, read_point (trimWhitespace l)) (data_lines lines).

(** At least three values can be read from every data line. *)
Definition readable (lines : list string) : Prop :=
  Forall (λ l, is_Some (read_point (trimWhitespace l))) (data_lines lines).

End Store.

(** What holds between iterations of ransac, beside [search_inv]: every
    iteration consumed three draws, and the best slab so far is the
    candidate of the first iteration whose count reached the best count. *)
Definition first_best `{G : Geometry} (pts : list Point) (pp : list nat)
    (tape : nat → Z) (slab_thickness : Real) (st : search) : Prop :=
  rng st = 3 * length (tried st) ∧
  (maxPoints st = 0%Z ∨
   ∃ j a b c,
     tried st !! j = Some (maxPoints st) ∧
     (∀ i n, i < j → tried st !! i = Some n → (n < maxPoints st)%Z) ∧
     picked pts pp tape (3 * j) = Some a ∧
     picked pts pp tape (S (3 * j)) = Some b ∧
     picked pts pp tape (S (S (3 * j))) = Some c ∧
     slab_points st = inliers pts (candidate_slab slab_thickness a b c) pp ∧
     plane (slab st) = fromThreePoints a b c).

(** The counts on record are those of the samples, in the order of the
    iterations: iteration j draws at tape positions 3j, 3j+1 and 3j+2 and
    records the size of the range-query answer of its slab. *)
Definition tried_counts `{G : Geometry} (pts : list Point) (pp : list nat)
    (tape : nat → Z) (slab_thickness : Real) (st : search) : Prop :=
  rng st = 3 * length (tried st) ∧
  ∀ j n,
    tried st !! j = Some n →
    ∃ a b c,
      picked pts pp tape (3 * j) = Some a ∧
      picked pts pp tape (S (3 * j)) = Some b ∧
      picked pts pp tape (S (S (3 * j))) = Some c ∧
      n = Z.of_nat (length (inliers pts (candidate_slab slab_thickness a b c)
                              pp)).

(** The number of inliers over all accepted rounds of a log. *)
Definition total_inliers `{G : Geometry} (log : list round) : nat :=
  sum_list (length <$> inlier_sets log).

(** ** An instance of the store over the exact geometry *)

Module ExactStore.

(** The box around the positions merged so far. *)
Definition merge (box : option (Exact.V3 * Exact.V3)) (v : Exact.V3)
  : option (Exact.V3 * Exact.V3) :=
  match box with
  | None => Some (v, v)
  | Some (lo, hi) =>
      Some ((lo.1.1 `min` v.1.1, lo.1.2 `min` v.1.2, lo.2 `min` v.2)%Z,
            (hi.1.1 `max` v.1.1, hi.1.2 `max` v.1.2, hi.2 `max` v.2)%Z)
  end.

(** Drop the spaces at the front. *)
Fixpoint drop_spaces (s : string) : string :=
  match s with
  | String c s' => if Ascii.is_space c then drop_spaces s' else s
  | EmptyString => EmptyString
  end.

(** Drop the spaces at both ends. *)
Definition trim (s : string) : string :=
  String.rev (drop_spaces (String.rev (drop_spaces s))).

(** The decimal number a word spells, if it spells one. *)
Fixpoint number_go (s : string) (acc : Z) : option Z :=
  match s with
  | EmptyString => Some acc
  | String c s' =>
      match Ascii.is_nat c with
      | Some d => number_go s' (10 * acc + Z.of_nat d)%Z
      | None => None
      end
  end.

Definition number (w : string) : option Z :=
  match w with
  | EmptyString => None
  | _ => number_go w 0
  end.

(** The numbers at the front of a list of words. *)
Fixpoint leading_numbers (ws : list string) : list Z :=
  match ws with
  | [] => []
  | w :: ws' =>
      match number w with
      | Some z => z :: leading_numbers ws'
      | None => []
      end
  end.

(** Unsigned decimal integers separated by spaces stand for the reals. *)
Definition numbers (line : string) : list Z :=
  leading_numbers (String.words line).

(** The exact geometry with a box that is the low and high corner of what
    was merged, [None] when null. *)
Definition geometry : Geometry :=
  {| Vector3 := Exact.V3;
     Real := Z;
     Plane3 := Exact.plane3;
     AxisAlignedBox3 := option (Exact.V3 * Exact.V3);
     Corners := option (Exact.V3 * Exact.V3);
     fromThreePoints := Exact.through;
     collinear := Exact.on_a_line;
     slab_contains := Exact.within;
     slab_extent := Exact.extent;
     default_plane := Exact.mkPlane (0, 0, 0)%Z 0;
     default_thickness := 0%Z;
     default_corners := None |}.

Definition store : Store (G := geometry) :=
  @Build_Store geometry
    (None : option (Exact.V3 * Exact.V3)) merge
    ((0, 0, 0)%Z : Exact.V3) (λ x y z : Z, (x, y, z))
    true trim numbers.

(** A file of three points, the second without a normal, with a blank
    line, and a file whose third line spells no point. *)
Definition three_points : list string :=
  ["0 0 0 0 0 1"; "   "; " 1 0 0 "; "0 1 0 0 0 1 9"]%string.

Definition bad_third_line : list string :=
  ["0 0 0"; "1 0 0"; "0 1"; "1 1 0"]%string.

End ExactStore.

(** ** Runs on the example clouds *)

Module Runs.

(** ransac on the square with an outlier: three iterations, min_points 2. *)
Definition square_run
  : option (Z * search (G := Exact.geometry) * PointCloud (G := Exact.geometry)) :=
  Eval vm_compute in
    ransac_run (G := Exact.geometry) Exact.tape012 3 1%Z 2 Slab_default []
      Exact.square_and_outlier.

(** A store without points and with a null box. *)
Definition nothing : PointCloud (G := ExactStore.geometry) :=
  mkPointCloud (G := ExactStore.geometry) []
    (None : option (Exact.V3 * Exact.V3)).

(** The square with an outlier, built from its arrays with the store
    operations, so that its box is current. *)
Definition square_positions : list Exact.V3 :=
  [(0, 0, 0); (1, 0, 0); (0, 1, 0); (1, 1, 0); (5, 5, 5)]%Z.

Definition square_normals : list Exact.V3 :=
  [(0, 0, 1); (0, 0, 1); (0, 0, 1); (0, 0, 1); (1, 0, 0)]%Z.

Definition square_built : construction (G := ExactStore.geometry) :=
  Eval vm_compute in
    PointCloud_of_arrays (St := ExactStore.store)
      square_positions square_normals.

Definition square : PointCloud (G := ExactStore.geometry) :=
  match square_built with
  | Built pc => pc
  | _ => nothing
  end.

(** Up to three planes extracted from it. *)
Definition square_planes
  : option (Z * list (Slab (G := ExactStore.geometry))
            * PointCloud (G := ExactStore.geometry)) :=
  Eval vm_compute in
    ransacMultiple (G := ExactStore.geometry) Exact.tapes012 3 3 1%Z 0 []
      square.

(** Loading the two example files into the empty store. *)
Definition loaded_three
  : bool * PointCloud (G := ExactStore.geometry) :=
  Eval vm_compute in
    load (St := ExactStore.store) (Some ExactStore.three_points) nothing.

Definition loaded_bad
  : bool * PointCloud (G := ExactStore.geometry) :=
  Eval vm_compute in
    load (St := ExactStore.store) (Some ExactStore.bad_third_line) nothing.

End Runs.

(** * Properties *)

Section Properties.

Context `{G : Geometry}.

Implicit Types (pc : PointCloud) (pts : list Point) (pp ps : list ptr).
Implicit Types (st : search) (s : Slab) (tape : nat → Z).

(** ** The monad and its primitives *)

Lemma bind_Some {A B} (m : M A) (k : A → M B) pc b pc2 :
  bind m k pc = Some (b, pc2) ↔
  ∃ a pc1, m pc = Some (a, pc1) ∧ k a pc1 = Some (b, pc2).
Proof.
  unfold bind. split.
  - destruct (m pc) as [[a pc1]|]; [|done]. intros H. by exists a, pc1.
  - intros (a & pc1 & -> & H). done.
Qed.

Lemma bind_read {A B} (m : M A) (k : A → M B) pc a :
  m pc = Some (a, pc) → bind m k pc = k a pc.
Proof. unfold bind. by intros ->. Qed.

Lemma bind_None {A B} (m : M A) (k : A → M B) pc :
  m pc = None → bind m k pc = None.
Proof. unfold bind. by intros ->. Qed.

Lemma bind_run {A B} (m : M A) (k : A → M B) pc a pc1 :
  m pc = Some (a, pc1) → bind m k pc = k a pc1.
Proof. unfold bind. by intros ->. Qed.

(** Run the head of a bind whose outcome [H] is known. *)
Ltac run H :=
  lazymatch type of H with
  | ?m ?pc = Some (?a, ?pc1) => rewrite (bind_run m _ pc a pc1 H)
  end.

(** The same when the outcome leaves the cloud as it was. *)
Ltac run_read H :=
  lazymatch type of H with
  | ?m ?pc = Some (?a, ?pc) => rewrite (bind_read m _ pc a H)
  end.

Lemma point_at_Some i pc p pc' :
  point_at i pc = Some (p, pc') ↔ points pc !! i = Some p ∧ pc' = pc.
Proof.
  unfold point_at. destruct (points pc !! i) as [q|]; split.
  - by intros [= -> ->].
  - by intros [[= ->] ->].
  - done.
  - by intros [? _].
Qed.

Lemma point_at_valid i pc :
  i < length (points pc) → ∃ p, points pc !! i = Some p ∧ point_at i pc = Some (p, pc).
Proof.
  intros Hi. destruct (lookup_lt_is_Some_2 _ _ Hi) as [p Hp].
  exists p. split; [done|]. by apply point_at_Some.
Qed.

Lemma at_index_Some {A} (v : list A) (z : Z) pc a pc' :
  at_index v z pc = Some (a, pc') ↔
  (0 ≤ z)%Z ∧ v !! Z.to_nat z = Some a ∧ pc' = pc.
Proof.
  unfold at_index. destruct (Z.ltb_spec z 0).
  - unfold undefined. split; [done|]. lia.
  - destruct (v !! Z.to_nat z) as [b|]; unfold ret, undefined; split.
    + by intros [= -> ->].
    + by intros (_ & [= ->] & ->).
    + done.
    + by intros (_ & ? & _).
Qed.

(** ** The enabled snapshot *)

Lemma is_enabled_lt pts i : is_enabled pts i → i < length pts.
Proof.
  unfold is_enabled. destruct (pts !! i) eqn:E; [|done].
  intros _. by eapply lookup_lt_Some.
Qed.

Lemma elem_of_enabled_ptrs pts i : i ∈ enabled_ptrs pts ↔ is_enabled pts i.
Proof.
  unfold enabled_ptrs. rewrite list_elem_of_filter, elem_of_seq. split.
  - by intros [? _].
  - intros H. split; [done|]. apply is_enabled_lt in H. lia.
Qed.

Lemma enabled_ptrs_valid pts :
  Forall (λ p, p < length pts) (enabled_ptrs pts).
Proof.
  apply Forall_forall. intros p Hp.
  apply is_enabled_lt. by apply elem_of_enabled_ptrs.
Qed.

Lemma gather_enabled_spec n i acc pc :
  i + n ≤ length (points pc) →
  gather_enabled n i acc pc
  = Some (acc ++ filter (λ j, is_enabled (points pc) j) (seq i n), pc).
Proof.
  revert i acc. induction n as [|n IH]; intros i acc Hn; simpl.
  - by rewrite app_nil_r.
  - destruct (point_at_valid i pc) as (p & Hp & Hr); [lia|].
    run_read Hr. rewrite IH by lia.
    rewrite filter_cons.
    assert (is_enabled (points pc) i = enabled p) as Hi
      by (unfold is_enabled; by rewrite Hp).
    destruct (decide _) as [Hd|Hd]; rewrite Hi in Hd;
      destruct (enabled p); try done.
    by rewrite <- app_assoc.
Qed.

Lemma gather_enabled_all pc :
  gather_enabled (length (points pc)) 0 [] pc
  = Some (enabled_ptrs (points pc), pc).
Proof. by rewrite gather_enabled_spec. Qed.

(** ** The index and the slab operations *)

Lemma inside_lookup pts s p pt :
  pts !! p = Some pt → inside pts s p = Slab_contains s (position pt).
Proof. unfold inside. by intros ->. Qed.

Lemma inliers_cons pts s p ps :
  inliers pts s (p :: ps)
  = if inside pts s p then p :: inliers pts s ps else inliers pts s ps.
Proof.
  unfold inliers. rewrite filter_cons.
  destruct (decide _) as [Hd|Hd]; destruct (inside pts s p); done.
Qed.

Lemma inliers_subseteq pts s ps : inliers pts s ps ⊆ ps.
Proof. intros p Hp. by apply list_elem_of_filter in Hp as [_ ?]. Qed.

Lemma rangeQuery_from_Some s ps out pc r pc' :
  rangeQuery_from s ps out pc = Some (r, pc') →
  pc' = pc ∧ r = out ++ inliers (points pc) s ps.
Proof.
  revert out. induction ps as [|p ps IH]; intros out; simpl.
  - intros [= <- <-]. by rewrite app_nil_r.
  - intros (pt & pc1 & [Hpt ->]%point_at_Some & Hrest)%bind_Some.
    apply IH in Hrest as [-> ->]. split; [done|].
    rewrite inliers_cons, (inside_lookup _ _ _ _ Hpt).
    destruct (Slab_contains s (position pt)); [|done].
    by rewrite <- app_assoc.
Qed.

Lemma rangeQuery_from_valid s ps out pc :
  Forall (λ p, p < length (points pc)) ps →
  rangeQuery_from s ps out pc = Some (out ++ inliers (points pc) s ps, pc).
Proof.
  intros Hv. revert out. induction Hv as [|p ps Hp Hv IH]; intros out; simpl.
  - by rewrite app_nil_r.
  - destruct (point_at_valid p pc Hp) as (pt & Hpt & Hr).
    run_read Hr. rewrite IH, inliers_cons, (inside_lookup _ _ _ _ Hpt).
    destruct (Slab_contains s (position pt)); [|done].
    by rewrite <- app_assoc.
Qed.

Lemma positions_of_Some ps pc vs pc' :
  positions_of ps pc = Some (vs, pc') →
  pc' = pc ∧ vs = positions (points pc) ps.
Proof.
  revert vs. induction ps as [|p ps IH]; intros vs; simpl.
  - by intros [= <- <-].
  - intros (pt & pc1 & [Hpt ->]%point_at_Some & Hrest)%bind_Some.
    apply bind_Some in Hrest as (ws & pc2 & Hws & [= <- <-]).
    apply IH in Hws as [-> ->]. split; [done|].
    unfold positions. simpl. by rewrite Hpt.
Qed.

Lemma positions_of_valid ps pc :
  Forall (λ p, p < length (points pc)) ps →
  positions_of ps pc = Some (positions (points pc) ps, pc).
Proof.
  induction 1 as [|p ps Hp Hv IH]; simpl; [done|].
  destruct (point_at_valid p pc Hp) as (pt & Hpt & Hr).
  run_read Hr. run_read IH. unfold positions. simpl. by rewrite Hpt.
Qed.

Lemma updateCorners_Some s ps pc s' pc' :
  updateCorners s ps pc = Some (s', pc') →
  pc' = pc ∧
  s' = {| plane := plane s; thickness := thickness s;
          corners := slab_extent (plane s) (positions (points pc) ps) |}.
Proof.
  unfold updateCorners.
  intros (vs & pc1 & [-> ->]%positions_of_Some & [= <- <-])%bind_Some. done.
Qed.

Lemma updateCorners_valid s ps pc :
  Forall (λ p, p < length (points pc)) ps →
  updateCorners s ps pc
  = Some ({| plane := plane s; thickness := thickness s;
             corners := slab_extent (plane s) (positions (points pc) ps) |},
          pc).
Proof.
  intros Hv. unfold updateCorners. by run_read (positions_of_valid ps pc Hv).
Qed.

(** ** Machine integers *)

Lemma to_int_size_minus_one (n : Z) :
  (0 < n ≤ 2 ^ 31)%Z → Machine.to_int (Machine.size_t_sub n 1) = (n - 1)%Z.
Proof.
  intros Hn. unfold Machine.to_int, Machine.size_t_sub.
  rewrite (Z.mod_small (n - 1)) by lia.
  rewrite Z.mod_small by lia. lia.
Qed.

Lemma to_int_size_zero : Machine.to_int (Machine.size_t_sub 0 1) = (-1)%Z.
Proof. reflexivity. Qed.


(** ** Sampling *)

Lemma draw_bounds a b tape cur :
  (a ≤ b)%Z →
  (a ≤ (draw {| uni_a := a; uni_b := b |} tape cur).1 ≤ b)%Z.
Proof.
  intros Hab. unfold draw. simpl.
  pose proof (Z.mod_pos_bound (tape cur) (b - a + 1)). lia.
Qed.

Lemma uniform_int_distribution_Some a b pc u pc' :
  uniform_int_distribution a b pc = Some (u, pc') ↔
  (a ≤ b)%Z ∧ u = {| uni_a := a; uni_b := b |} ∧ pc' = pc.
Proof.
  unfold uniform_int_distribution. destruct (Z.leb_spec a b); split.
  - by intros [= <- <-].
  - by intros (_ & -> & ->).
  - done.
  - lia.
Qed.

Lemma sample_position_Some pp u tape cur pc r pc' :
  sample_position pp u tape cur pc = Some (r, pc') →
  pc' = pc ∧ r.2 = S cur ∧
  ∃ p, (0 ≤ (draw u tape cur).1)%Z ∧
       pp !! Z.to_nat (draw u tape cur).1 = Some p ∧
       position <$> points pc !! p = Some r.1.
Proof.
  unfold sample_position.
  intros (p & pc1 & (Hz & Hp & ->)%at_index_Some & Hrest)%bind_Some.
  apply bind_Some in Hrest as (pt & pc2 & [Hpt ->]%point_at_Some & [= <- <-]).
  split; [done|]. split; [done|]. exists p. by rewrite Hpt.
Qed.

Lemma sample_position_picked pp tape cur pc r pc' :
  sample_position pp (index_distribution pp) tape cur pc = Some (r, pc') →
  pc' = pc ∧ r.2 = S cur ∧ picked (points pc) pp tape cur = Some r.1.
Proof.
  intros (-> & Hcur & p & _ & Hp & Hv)%sample_position_Some.
  split; [done|]. split; [done|]. unfold picked. by rewrite Hp.
Qed.

Lemma sample_position_valid pp tape cur pc :
  pp ≠ [] → (Z.of_nat (length pp) ≤ 2 ^ 31)%Z →
  Forall (λ p, p < length (points pc)) pp →
  ∃ v, picked (points pc) pp tape cur = Some v ∧
       sample_position pp (index_distribution pp) tape cur pc
       = Some ((v, S cur), pc).
Proof.
  intros Hne Hsz Hv.
  assert (0 < Z.of_nat (length pp))%Z as Hpos by (destruct pp; [done|simpl; lia]).
  pose proof (draw_bounds 0 (Z.of_nat (length pp) - 1) tape cur) as Hd.
  unfold sample_position, picked, index_distribution.
  rewrite to_int_size_minus_one by lia.
  set (z := (draw _ tape cur).1) in *.
  destruct (lookup_lt_is_Some_2 pp (Z.to_nat z)) as [p Hp]; [lia|].
  assert (p < length (points pc)) as Hlt.
  { eapply (proj1 (Forall_lookup _ _) Hv); done. }
  destruct (point_at_valid p pc Hlt) as (pt & Hpt & Hr).
  exists (position pt). rewrite Hp. simpl. rewrite Hpt. split; [done|].
  assert (at_index pp z pc = Some (p, pc)) as Hat
    by (apply at_index_Some; split; [lia|done]).
  run_read Hat. by run_read Hr.
Qed.

(** ** One iteration of ransac *)

Lemma length_zero_iff_nil {A} (l : list A) : length l = 0 ↔ l = [].
Proof. by destruct l. Qed.

Lemma ransac_body_empty kdt tape th mp st pc :
  ransac_body kdt [] tape th mp st pc = Some (Return 0, pc).
Proof. done. Qed.

Lemma ransac_body_Some kdt pp tape th mp st pc r pc' :
  ransac_body kdt pp tape th mp st pc = Some (r, pc') →
  pc' = pc ∧
  ((pp = [] ∧ r = Return 0) ∨
   (pp ≠ [] ∧ (0 ≤ uni_b (index_distribution pp))%Z ∧
    ∃ a b c,
      picked (points pc) pp tape (rng st) = Some a ∧
      picked (points pc) pp tape (S (rng st)) = Some b ∧
      picked (points pc) pp tape (S (S (rng st))) = Some c ∧
      r = Continue (next_search (points pc) kdt th mp a b c st))).
Proof.
  unfold ransac_body. destruct (decide (length pp = 0)) as [Hz|Hnz].
  { intros [= <- <-]. split; [done|]. left. by apply length_zero_iff_nil in Hz. }
  intros (u & pc1 & (Hu & -> & ->)%uniform_int_distribution_Some & H)%bind_Some.
  fold (index_distribution pp) in H.
  apply bind_Some in H as (a & pc1 & (-> & Ha2 & Ha)%sample_position_picked & H).
  apply bind_Some in H as (b & pc1 & (-> & Hb2 & Hb)%sample_position_picked & H).
  apply bind_Some in H as (c & pc1 & (-> & Hc2 & Hc)%sample_position_picked & H).
  apply bind_Some in H as (found & pc1 & [-> ->]%rangeQuery_from_Some & H).
  rewrite Ha2 in Hb, Hb2. rewrite Hb2 in Hc, Hc2. simpl in H.
  assert (pp ≠ []) as Hne by (by intros ->).
  split.
  { destruct (_ && _) in H.
    - by apply bind_Some in H as (? & ? & [-> _]%updateCorners_Some & [= _ <-]).
    - by injection H as _ <-. }
  right. split; [done|]. split; [done|]. exists a.1, b.1, c.1.
  split; [done|]. split; [done|]. split; [done|].
  unfold next_search, candidate_slab.
  destruct (_ && _).
  - apply bind_Some in H as (s' & ? & [-> ->]%updateCorners_Some & [= <- _]).
    by rewrite Hc2.
  - injection H as <- _. by rewrite Hc2.
Qed.

Lemma ransac_body_valid kdt pp tape th mp st pc :
  pp ≠ [] → (Z.of_nat (length pp) ≤ 2 ^ 31)%Z →
  Forall (λ p, p < length (points pc)) pp →
  Forall (λ p, p < length (points pc)) (indexed kdt) →
  ∃ a b c,
    picked (points pc) pp tape (rng st) = Some a ∧
    picked (points pc) pp tape (S (rng st)) = Some b ∧
    picked (points pc) pp tape (S (S (rng st))) = Some c ∧
    ransac_body kdt pp tape th mp st pc
    = Some (Continue (next_search (points pc) kdt th mp a b c st), pc).
Proof.
  intros Hne Hsz Hv Hk.
  destruct (sample_position_valid pp tape (rng st) pc) as (a & Ha & Hsa); [done..|].
  destruct (sample_position_valid pp tape (S (rng st)) pc) as (b & Hb & Hsb); [done..|].
  destruct (sample_position_valid pp tape (S (S (rng st))) pc) as (c & Hc & Hsc); [done..|].
  exists a, b, c. split; [done|]. split; [done|]. split; [done|].
  unfold ransac_body. destruct (decide (length pp = 0)) as [Hz|Hnz].
  { by apply length_zero_iff_nil in Hz. }
  assert (0 < Z.of_nat (length pp))%Z as Hpos by lia.
  assert (uniform_int_distribution 0
            (Machine.to_int (Machine.size_t_sub (Z.of_nat (length pp)) 1)) pc
          = Some (index_distribution pp, pc)) as Hu.
  { apply uniform_int_distribution_Some. split; [|done].
    rewrite to_int_size_minus_one by lia. lia. }
  run_read Hu. run_read Hsa. simpl. run_read Hsb. simpl. run_read Hsc. simpl.
  unfold rangeQuery.
  run_read (rangeQuery_from_valid (Slab_make (fromThreePoints a b c) th)
              (indexed kdt) [] pc Hk).
  simpl. unfold next_search, candidate_slab.
  destruct (_ && _); [|done].
  assert (Forall (λ p, p < length (points pc))
            (inliers (points pc) (Slab_make (fromThreePoints a b c) th)
               (indexed kdt))) as Hf.
  { apply Forall_forall. intros p Hp%inliers_subseteq.
    by apply (proj1 (Forall_forall _ _) Hk). }
  by run_read (updateCorners_valid
                 (Slab_make (fromThreePoints a b c) th) _ pc Hf).
Qed.

Lemma ransac_body_narrowed kdt pp tape th mp st pc :
  pp ≠ [] → (uni_b (index_distribution pp) < 0)%Z →
  ransac_body kdt pp tape th mp st pc = None.
Proof.
  intros Hne Hneg. unfold ransac_body.
  destruct (decide (length pp = 0)) as [Hz|Hnz].
  { by apply length_zero_iff_nil in Hz. }
  apply bind_None. unfold uniform_int_distribution.
  simpl in Hneg. destruct (Z.leb_spec 0
    (Machine.to_int (Machine.size_t_sub (Z.of_nat (length pp)) 1))); [lia|done].
Qed.

(** ** The loop of ransac *)

Lemma search_inv_initial pts pp tape th mp slab0 sp0 :
  search_inv pts pp tape th mp slab0 sp0 (initial_search slab0 sp0).
Proof.
  split; [done|]. split; [by apply Forall_nil|]. by left.
Qed.

Lemma search_inv_next pts pp tape th mp slab0 sp0 st a b c :
  picked pts pp tape (rng st) = Some a →
  picked pts pp tape (S (rng st)) = Some b →
  picked pts pp tape (S (S (rng st))) = Some c →
  search_inv pts pp tape th mp slab0 sp0 st →
  search_inv pts pp tape th mp slab0 sp0
    (next_search pts (PointKDTree_build pp) th mp a b c st).
Proof.
  intros Ha Hb Hc (Hmax & Htried & Hbest). unfold next_search. simpl.
  set (found := inliers pts (candidate_slab th a b c) pp).
  set (n := Z.of_nat (length found)).
  assert (0 ≤ n)%Z as Hn by lia.
  destruct (Z.ltb_spec mp n) as [Hmp|Hmp]; simpl;
    [destruct (Z.ltb_spec (maxPoints st) n) as [Hbig|Hbig]|];
    unfold search_inv; simpl.
  - split; [lia|]. split.
    + apply Forall_app. split; [|apply Forall_singleton; lia].
      eapply Forall_impl; [exact Htried|]. simpl. intros m [? Hm]. split; lia.
    + right. split; [lia|]. split; [done|]. split.
      { apply elem_of_app. right. by apply list_elem_of_singleton. }
      by exists (rng st), a, b, c.
  - split; [done|]. split.
    + apply Forall_app. split; [done|]. apply Forall_singleton. lia.
    + destruct Hbest as [?|(?&?&?&?)]; [by left|].
      right. split; [lia|]. split; [done|]. split; [|done].
      apply elem_of_app. by left.
  - split; [done|]. split.
    + apply Forall_app. split; [done|]. apply Forall_singleton. lia.
    + destruct Hbest as [?|(?&?&?&?)]; [by left|].
      right. split; [lia|]. split; [done|]. split; [|done].
      apply elem_of_app. by left.
Qed.

Lemma ransac_loop_Some pp tape th mp slab0 sp0 n i st pc k stf pc' :
  ransac_loop (PointKDTree_build pp) pp tape th mp n i st pc
  = Some ((k, stf), pc') →
  pc' = pc ∧
  ((pp = [] ∧ n ≠ 0 ∧ k = 0%Z ∧ stf = st) ∨
   ((pp ≠ [] ∨ n = 0) ∧ k = maxPoints stf ∧
    length (tried stf) = length (tried st) + n ∧
    (search_inv (points pc) pp tape th mp slab0 sp0 st →
     search_inv (points pc) pp tape th mp slab0 sp0 stf))).
Proof.
  revert i st. induction n as [|n IH]; intros i st; simpl.
  - intros [= <- <- <-]. split; [done|]. right.
    split; [by right|]. split; [done|]. split; [lia|done].
  - intros (r & pc1 & Hbody & Hrest)%bind_Some.
    apply ransac_body_Some in Hbody
      as (-> & [[-> ->]|(Hne & _ & a & b & c & Ha & Hb & Hc & ->)]).
    + injection Hrest as <- <- <-. split; [done|]. by left.
    + destruct (i <? Machine.INT_MAX)%Z; [|done].
      apply IH in Hrest as (-> & [[-> _]|(_ & -> & Hlen & Hinv)]); [done|].
      split; [done|]. right. split; [by left|]. split; [done|]. split.
      * rewrite Hlen. unfold next_search.
        destruct (_ && _); simpl; rewrite length_app; simpl; lia.
      * intros Hst. apply Hinv. by apply search_inv_next.
Qed.

Lemma ransac_loop_valid pp tape th mp n i st pc :
  pp ≠ [] → (Z.of_nat (length pp) ≤ 2 ^ 31)%Z →
  Forall (λ p, p < length (points pc)) pp →
  (i + Z.of_nat n ≤ Machine.INT_MAX)%Z →
  ∃ stf, ransac_loop (PointKDTree_build pp) pp tape th mp n i st pc
         = Some ((maxPoints stf, stf), pc).
Proof.
  intros Hne Hsz Hv. revert i st. induction n as [|n IH]; intros i st Hi; simpl.
  - by exists st.
  - destruct (ransac_body_valid (PointKDTree_build pp) pp tape th mp st pc)
      as (a & b & c & _ & _ & _ & Hbody); [done..|].
    run_read Hbody.
    destruct (Z.ltb_spec i Machine.INT_MAX); [|lia].
    apply IH. lia.
Qed.

Lemma ransac_loop_overflow pp tape th mp n i st pc :
  pp ≠ [] → (i ≤ Machine.INT_MAX < i + Z.of_nat n)%Z →
  ransac_loop (PointKDTree_build pp) pp tape th mp n i st pc = None.
Proof.
  intros Hne. revert i st. induction n as [|n IH]; intros i st Hi; simpl.
  - lia.
  - unfold bind.
    destruct (ransac_body _ pp tape th mp st pc) as [[r pc1]|] eqn:Hbody; [|done].
    apply ransac_body_Some in Hbody as (-> & [[-> ->]|(_ & _ & a & b & c & _ & _ & _ & ->)]);
      [done|].
    destruct (Z.ltb_spec i Machine.INT_MAX); [|done]. apply IH. lia.
Qed.

(** A property of the loop variables that every completed iteration keeps
    holds when the loop ends. *)
Lemma ransac_loop_invariant (I : search → Prop) pp tape th mp n i st pc
    k stf pc' :
  (∀ st a b c,
     picked (points pc) pp tape (rng st) = Some a →
     picked (points pc) pp tape (S (rng st)) = Some b →
     picked (points pc) pp tape (S (S (rng st))) = Some c →
     I st → I (next_search (points pc) (PointKDTree_build pp) th mp a b c st)) →
  ransac_loop (PointKDTree_build pp) pp tape th mp n i st pc
  = Some ((k, stf), pc') →
  I st → I stf.
Proof.
  intros Hstep. revert i st. induction n as [|n IH]; intros i st; simpl.
  - by intros [= _ <- _].
  - intros (r & pc1 & Hbody & Hrest)%bind_Some Hst.
    apply ransac_body_Some in Hbody
      as (-> & [[-> ->]|(Hne & _ & a & b & c & Ha & Hb & Hc & ->)]).
    + by injection Hrest as _ <- _.
    + destruct (i <? Machine.INT_MAX)%Z; [|done].
      eapply IH; [exact Hrest|]. by apply Hstep.
Qed.

Lemma tried_counts_initial pts pp tape th slab0 sp0 :
  tried_counts pts pp tape th (initial_search slab0 sp0).
Proof. split; [done|]. by intros j n. Qed.

Lemma tried_counts_next pts pp tape th mp st a b c :
  picked pts pp tape (rng st) = Some a →
  picked pts pp tape (S (rng st)) = Some b →
  picked pts pp tape (S (S (rng st))) = Some c →
  tried_counts pts pp tape th st →
  tried_counts pts pp tape th
    (next_search pts (PointKDTree_build pp) th mp a b c st).
Proof.
  intros Ha Hb Hc [Hrng Hcounts].
  assert (tried (next_search pts (PointKDTree_build pp) th mp a b c st)
          = tried st
            ++ [Z.of_nat (length (inliers pts (candidate_slab th a b c) pp))])
    as Htried by (unfold next_search; simpl; by destruct (_ && _)).
  assert (rng (next_search pts (PointKDTree_build pp) th mp a b c st)
          = S (S (S (rng st))))
    as Hnext by (unfold next_search; simpl; by destruct (_ && _)).
  split.
  - rewrite Hnext, Htried, length_app. simpl. lia.
  - intros j n. rewrite Htried. intros Hj.
    apply lookup_app_Some in Hj as [Hj|[Hlen Hj]]; [by apply Hcounts|].
    apply list_lookup_singleton_Some in Hj as [Hz <-].
    assert (j = length (tried st)) as -> by lia.
    rewrite <- Hrng. by exists a, b, c.
Qed.

(** ** ransac as a whole *)

Lemma ransac_run_unfold tape ni th mp slab0 sp0 pc :
  ransac_run tape ni th mp slab0 sp0 pc
  = ransac_loop (PointKDTree_build (enabled_ptrs (points pc)))
      (enabled_ptrs (points pc)) tape th mp (Z.to_nat ni) 0
      (initial_search slab0 sp0) pc.
Proof.
  unfold ransac_run.
  assert (points_size pc = Some (length (points pc), pc)) as Hs by done.
  run_read Hs. by run_read (gather_enabled_all pc).
Qed.

Lemma ransac_run_tried_counts tape ni th mp slab0 sp0 pc k st pc' :
  ransac_run tape ni th mp slab0 sp0 pc = Some ((k, st), pc') →
  tried_counts (points pc) (enabled_ptrs (points pc)) tape th st.
Proof.
  rewrite ransac_run_unfold. intros Hloop.
  eapply (ransac_loop_invariant
            (tried_counts (points pc) (enabled_ptrs (points pc)) tape th));
    [|exact Hloop|apply tried_counts_initial].
  intros st' a b c Ha Hb Hc Hst. by apply tried_counts_next.
Qed.

Lemma ransac_run_Some tape ni th mp slab0 sp0 pc k stf pc' :
  ransac_run tape ni th mp slab0 sp0 pc = Some ((k, stf), pc') →
  pc' = pc ∧ k = maxPoints stf ∧
  length (tried stf) ≤ Z.to_nat ni ∧
  search_inv (points pc) (enabled_ptrs (points pc)) tape th mp slab0 sp0 stf.
Proof.
  rewrite ransac_run_unfold.
  intros (-> & [(_ & _ & -> & ->)|(_ & -> & Hlen & Hinv)])%(ransac_loop_Some _ _ _ _ slab0 sp0).
  - split; [done|]. split; [done|]. split; [simpl; lia|].
    apply search_inv_initial.
  - split; [done|]. split; [done|]. split; [simpl in Hlen; lia|].
    apply Hinv, search_inv_initial.
Qed.

Lemma ransac_run_empty tape ni th mp slab0 sp0 pc :
  enabled_ptrs (points pc) = [] →
  ransac_run tape ni th mp slab0 sp0 pc
  = Some ((0%Z, initial_search slab0 sp0), pc).
Proof.
  intros He. rewrite ransac_run_unfold, He.
  destruct (Z.to_nat ni); done.
Qed.

Lemma ransac_run_no_iters tape ni th mp slab0 sp0 pc :
  (ni ≤ 0)%Z →
  ransac_run tape ni th mp slab0 sp0 pc
  = Some ((0%Z, initial_search slab0 sp0), pc).
Proof.
  intros Hni. rewrite ransac_run_unfold.
  replace (Z.to_nat ni) with 0 by lia. done.
Qed.

Lemma ransac_run_total tape ni th mp slab0 sp0 pc :
  (Z.of_nat (length (enabled_ptrs (points pc))) ≤ 2 ^ 31)%Z →
  (ni ≤ Machine.INT_MAX)%Z →
  ∃ stf, ransac_run tape ni th mp slab0 sp0 pc
         = Some ((maxPoints stf, stf), pc).
Proof.
  intros Hsz Hni.
  destruct (decide (enabled_ptrs (points pc) = [])) as [He|He].
  { exists (initial_search slab0 sp0). by apply ransac_run_empty. }
  rewrite ransac_run_unfold. apply ransac_loop_valid; [done..| |].
  - apply enabled_ptrs_valid.
  - unfold Machine.INT_MAX in *. lia.
Qed.

Lemma ransac_Some tape ni th mp slab0 sp0 pc k s ps pc' :
  ransac tape ni th mp slab0 sp0 pc = Some ((k, s, ps), pc') ↔
  ∃ stf, ransac_run tape ni th mp slab0 sp0 pc = Some ((k, stf), pc') ∧
         s = slab stf ∧ ps = slab_points stf.
Proof.
  unfold ransac. rewrite bind_Some. split.
  - intros ([k' stf] & pc1 & Hrun & [= <- <- <- <-]). by exists stf.
  - intros (stf & Hrun & -> & ->). by exists (k, stf), pc'.
Qed.

(** ** Writing the enabled flags *)

Lemma pointcloud_eq pc1 pc2 :
  points pc1 = points pc2 → bbox pc1 = bbox pc2 → pc1 = pc2.
Proof. destruct pc1, pc2. simpl. by intros -> ->. Qed.

Lemma setEnabled_valid i b pc :
  i < length (points pc) →
  setEnabled i b pc
  = Some (tt, {| points := alter (setEnabledFlag b) i (points pc);
                 bbox := bbox pc |}).
Proof.
  intros Hi. unfold setEnabled.
  destruct (lookup_lt_is_Some_2 _ _ Hi) as [p Hp]. rewrite Hp.
  do 2 f_equal. apply pointcloud_eq; [|done]. simpl.
  apply list_eq. intros j. destruct (decide (i = j)) as [<-|Hne].
  - rewrite list_lookup_insert_eq, list_lookup_alter_eq, Hp by done. done.
  - by rewrite list_lookup_insert_ne, list_lookup_alter_ne.
Qed.

Lemma enable_all_spec n i pc :
  i + n ≤ length (points pc) →
  enable_all n i pc
  = Some (tt, {| points := imap (λ j p, if bool_decide (i ≤ j < i + n)
                                        then setEnabledFlag true p else p)
                             (points pc);
                 bbox := bbox pc |}).
Proof.
  revert i pc. induction n as [|n IH]; intros i pc Hn; simpl.
  - unfold ret. do 2 f_equal. apply pointcloud_eq; [|done]. simpl.
    apply list_eq. intros j. rewrite list_lookup_imap.
    destruct (points pc !! j); [|done]. simpl.
    by rewrite bool_decide_eq_false_2 by lia.
  - run (setEnabled_valid i true pc ltac:(lia)).
    rewrite IH by (simpl; rewrite length_alter; lia).
    do 2 f_equal. apply pointcloud_eq; [|done]. simpl.
    apply list_eq. intros j. rewrite !list_lookup_imap.
    destruct (decide (i = j)) as [<-|Hne].
    + rewrite list_lookup_alter_eq. destruct (points pc !! i); [|done]. simpl.
      rewrite bool_decide_eq_false_2 by lia.
      by rewrite bool_decide_eq_true_2 by lia.
    + rewrite list_lookup_alter_ne by done.
      destruct (points pc !! j); [|done]. simpl.
      destruct (decide (S i ≤ j < S i + n)).
      * by rewrite !bool_decide_eq_true_2 by lia.
      * by rewrite !bool_decide_eq_false_2 by lia.
Qed.

Lemma enable_all_whole pc :
  enable_all (length (points pc)) 0 pc = Some (tt, all_enabled pc).
Proof.
  rewrite enable_all_spec by lia. do 2 f_equal.
  apply pointcloud_eq; [|done]. simpl.
  apply list_eq. intros j. rewrite list_lookup_imap, list_lookup_fmap.
  destruct (points pc !! j) eqn:Hj; [|done]. simpl.
  apply lookup_lt_Some in Hj. by rewrite bool_decide_eq_true_2 by lia.
Qed.

Lemma disable_points_valid ps pc :
  Forall (λ p, p < length (points pc)) ps →
  disable_points ps pc = Some (tt, without ps pc).
Proof.
  revert pc. induction ps as [|p ps IH]; intros pc Hv; simpl.
  - unfold ret, without. do 2 f_equal. apply pointcloud_eq; [|done]. simpl.
    apply list_eq. intros j. rewrite list_lookup_imap.
    by destruct (points pc !! j).
  - apply Forall_cons in Hv as [Hp Hv].
    pose proof (setEnabled_valid p false pc Hp) as Hset. run Hset.
    rewrite IH by (simpl; by rewrite length_alter).
    do 2 f_equal. apply pointcloud_eq; [|done]. simpl.
    apply list_eq. intros j. rewrite !list_lookup_imap.
    destruct (decide (p = j)) as [<-|Hne].
    + rewrite list_lookup_alter_eq. destruct (points pc !! p); [|done]. simpl.
      rewrite (bool_decide_eq_true_2 (p ∈ p :: ps)) by apply list_elem_of_here.
      by destruct (bool_decide (p ∈ ps)).
    + rewrite list_lookup_alter_ne by done.
      destruct (points pc !! j); [|done]. simpl.
      destruct (decide (j ∈ ps)).
      * rewrite !bool_decide_eq_true_2; [done|by apply list_elem_of_further|done].
      * rewrite !bool_decide_eq_false_2; [done| |done].
        rewrite elem_of_cons. by intros [->|?].
Qed.

Lemma without_lookup ps pc j :
  points (without ps pc) !! j
  = (λ p, if bool_decide (j ∈ ps) then setEnabledFlag false p else p)
      <$> points pc !! j.
Proof. unfold without. simpl. by rewrite list_lookup_imap. Qed.

Lemma without_length ps pc :
  length (points (without ps pc)) = length (points pc).
Proof. unfold without. simpl. by rewrite length_imap. Qed.

Lemma without_is_enabled ps pc j :
  is_enabled (points (without ps pc)) j
  = is_enabled (points pc) j && negb (bool_decide (j ∈ ps)).
Proof.
  unfold is_enabled. rewrite without_lookup.
  destruct (points pc !! j) as [p|]; [|done]. simpl.
  destruct (bool_decide (j ∈ ps)); simpl; [by rewrite andb_false_r|].
  by rewrite andb_true_r.
Qed.

(** ** The accepted state of a search *)

Lemma search_inv_accepted pts pp tape th mp slab0 sp0 st :
  search_inv pts pp tape th mp slab0 sp0 st → (0 < maxPoints st)%Z →
  (mp < maxPoints st)%Z ∧
  maxPoints st ∈ tried st ∧
  maxPoints st = Z.of_nat (length (slab_points st)) ∧
  slab_points st = inliers pts (slab st) pp ∧
  thickness (slab st) = th ∧
  corners (slab st)
  = slab_extent (plane (slab st)) (positions pts (slab_points st)) ∧
  ∃ cur a b c,
    picked pts pp tape cur = Some a ∧
    picked pts pp tape (S cur) = Some b ∧
    picked pts pp tape (S (S cur)) = Some c ∧
    plane (slab st) = fromThreePoints a b c.
Proof.
  intros (_ & _ & [(Hz & _)|(_ & Hmp & Hin & cur & a & b & c & Ha & Hb & Hc & H)]) Hpos;
    [lia|].
  simpl in H. destruct H as (Hn & Hps & Hs).
  split; [done|]. split; [done|]. rewrite Hs, Hps. simpl.
  split; [by rewrite Hn|]. split; [done|]. split; [done|]. split; [done|].
  by exists cur, a, b, c.
Qed.

Lemma search_inv_unaccepted pts pp tape th mp slab0 sp0 st :
  search_inv pts pp tape th mp slab0 sp0 st → maxPoints st = 0%Z →
  slab st = slab0 ∧ slab_points st = sp0 ∧
  Forall (λ n, ¬ ((mp < n)%Z ∧ (0 < n)%Z)) (tried st).
Proof.
  intros (_ & Htried & [(_ & Hs & Hps)|(? & _)]) Hz; [|lia].
  split; [done|]. split; [done|].
  eapply Forall_impl; [exact Htried|]. simpl. intros n [? Hn]. lia.
Qed.

Lemma slab_points_enabled pts pp tape th mp slab0 sp0 st p :
  search_inv pts pp tape th mp slab0 sp0 st → (0 < maxPoints st)%Z →
  p ∈ slab_points st → p ∈ pp.
Proof.
  intros Hinv Hpos Hp.
  destruct (search_inv_accepted _ _ _ _ _ _ _ _ Hinv Hpos) as (_ & _ & _ & Hps & _).
  rewrite Hps in Hp. by apply inliers_subseteq in Hp.
Qed.

Lemma ransac_run_points_enabled tape ni th mp slab0 sp0 pc k st pc' p :
  ransac_run tape ni th mp slab0 sp0 pc = Some ((k, st), pc') → (0 < k)%Z →
  p ∈ slab_points st → is_enabled (points pc) p.
Proof.
  intros (_ & -> & _ & Hinv)%ransac_run_Some Hk Hp.
  apply elem_of_enabled_ptrs. by eapply slab_points_enabled.
Qed.

Lemma ransac_run_points_valid tape ni th mp slab0 sp0 pc k st pc' :
  ransac_run tape ni th mp slab0 sp0 pc = Some ((k, st), pc') → (0 < k)%Z →
  Forall (λ p, p < length (points pc)) (slab_points st).
Proof.
  intros Hrun Hk. apply Forall_forall. intros p Hp.
  eapply is_enabled_lt, ransac_run_points_enabled; done.
Qed.

(** ** The extraction loop and its step relation *)

Section Extraction.

Variables (tapes : nat → nat → Z) (ni : Z) (th : Real) (mp : Z).

Lemma pushed_cons_accepted rd log :
  accepted rd → pushed (rd :: log) = r_slab rd :: pushed log.
Proof.
  intros Ha. unfold pushed. rewrite filter_cons.
  by destruct (decide _).
Qed.

Lemma pushed_cons_rejected rd log :
  ¬ accepted rd → pushed (rd :: log) = pushed log.
Proof.
  intros Ha. unfold pushed. rewrite filter_cons.
  by destruct (decide _).
Qed.

Lemma inlier_sets_cons_accepted rd log :
  accepted rd → inlier_sets (rd :: log) = r_points rd :: inlier_sets log.
Proof.
  intros Ha. unfold inlier_sets. rewrite filter_cons.
  by destruct (decide _).
Qed.

Lemma inlier_sets_cons_rejected rd log :
  ¬ accepted rd → inlier_sets (rd :: log) = inlier_sets log.
Proof.
  intros Ha. unfold inlier_sets. rewrite filter_cons.
  by destruct (decide _).
Qed.

Lemma accepted_round_of k st : accepted (round_of k st) ↔ (0 < k)%Z.
Proof.
  unfold accepted. simpl. destruct (Z.ltb_spec 0 k); split; try done; lia.
Qed.

Lemma extract_loop_Some n i slabs log pc slabs' log' pc' :
  extract_loop tapes ni th mp n i slabs log pc = Some ((slabs', log'), pc') ↔
  ∃ new, extraction tapes ni th mp n i pc new pc' ∧
         log' = log ++ new ∧ slabs' = slabs ++ pushed new.
Proof.
  split.
  - revert i slabs log pc. induction n as [|n IH]; intros i slabs log pc; simpl.
    + intros [= <- <- <-]. exists []. rewrite !app_nil_r.
      split; [constructor|done].
    + intros ([k st] & pc1 & Hrun & Hrest)%bind_Some.
      destruct (ransac_run_Some _ _ _ _ _ _ _ _ _ _ Hrun) as (-> & Hk & _ & Hinv).
      simpl in Hrest. destruct (Z.leb_spec k 0) as [Hle|Hgt].
      * injection Hrest as <- <- <-. exists [round_of k st].
        split; [by eapply extraction_break|]. split; [done|].
        rewrite pushed_cons_rejected, app_nil_r; [done|].
        rewrite accepted_round_of. lia.
      * pose proof (ransac_run_points_valid _ _ _ _ _ _ _ _ _ _ Hrun Hgt) as Hv.
        pose proof (disable_points_valid _ _ Hv) as Hdis.
        rewrite (bind_run _ _ _ _ _ Hdis) in Hrest.
        apply IH in Hrest as (rest & Hext & -> & ->).
        exists (round_of k st :: rest).
        split; [by eapply extraction_accept|].
        rewrite <- !app_assoc. split; [done|].
        rewrite pushed_cons_accepted; [done|]. by apply accepted_round_of.
  - intros (new & Hext & -> & ->). revert slabs log.
    induction Hext as [i pc|n i pc k st Hrun Hk|n i pc k st rest pc' Hrun Hk Hext IH];
      intros slabs log; simpl.
    + by rewrite !app_nil_r.
    + run_read Hrun. simpl. destruct (Z.leb_spec k 0); [|lia].
      rewrite pushed_cons_rejected, app_nil_r; [done|].
      rewrite accepted_round_of. lia.
    + run_read Hrun. simpl. destruct (Z.leb_spec k 0); [lia|].
      pose proof (ransac_run_points_valid _ _ _ _ _ _ _ _ _ _ Hrun Hk) as Hv.
      pose proof (disable_points_valid _ _ Hv) as Hdis. run Hdis.
      rewrite IH, <- !app_assoc. simpl.
      rewrite pushed_cons_accepted; [done|]. by apply accepted_round_of.
Qed.

Lemma ransacMultiple_run_Some np slabs pc k slabs' log pc' :
  ransacMultiple_run tapes np ni th mp slabs pc
  = Some ((k, slabs', log), pc') ↔
  extraction tapes ni th mp (Z.to_nat np) 0 (all_enabled pc) log pc' ∧
  slabs' = pushed log ∧ k = Z.of_nat (length slabs').
Proof.
  unfold ransacMultiple_run.
  assert (points_size pc = Some (length (points pc), pc)) as Hs by done.
  run_read Hs. pose proof (enable_all_whole pc) as He. run He.
  rewrite bind_Some. split.
  - intros ([sl lg] & pc1 & (new & Hext & -> & ->)%extract_loop_Some & [= <- <- <- <-]).
    done.
  - intros (Hext & -> & ->). exists (pushed log, log), pc'. split; [|done].
    apply extract_loop_Some. by exists log.
Qed.

Lemma ransacMultiple_Some np slabs pc k slabs' pc' :
  ransacMultiple tapes np ni th mp slabs pc = Some ((k, slabs'), pc') ↔
  ∃ log, ransacMultiple_run tapes np ni th mp slabs pc
         = Some ((k, slabs', log), pc').
Proof.
  unfold ransacMultiple. rewrite bind_Some. split.
  - intros ([[k' sl] log] & pc1 & Hrun & [= <- <- <-]). by exists log.
  - intros (log & Hrun). by exists (k, slabs', log), pc'.
Qed.

Lemma without_same_geometry ps pc : same_geometry (without ps pc) pc.
Proof.
  split; [done|]. split; apply list_eq; intros j;
    rewrite !list_lookup_fmap, without_lookup;
    destruct (points pc !! j); [|done| |done]; simpl;
    by destruct (bool_decide _).
Qed.

Lemma same_geometry_trans pc1 pc2 pc3 :
  same_geometry pc1 pc2 → same_geometry pc2 pc3 → same_geometry pc1 pc3.
Proof.
  intros (? & ? & ?) (? & ? & ?). split; [congruence|]. split; congruence.
Qed.


(** The loop keeps positions, normals and the box, and only clears flags. *)
Lemma extraction_frame n i pc log pc' :
  extraction tapes ni th mp n i pc log pc' →
  same_geometry pc' pc ∧
  ∀ p, is_enabled (points pc') p → is_enabled (points pc) p.
Proof.
  induction 1 as [i pc|n i pc k st Hrun Hk|n i pc k st rest pc' Hrun Hk Hext IH].
  - done.
  - done.
  - destruct IH as [Hg Hen]. split.
    + eapply same_geometry_trans; [exact Hg|apply without_same_geometry].
    + intros p Hp%Hen. rewrite without_is_enabled in Hp.
      by apply andb_prop_elim in Hp as [? _].
Qed.

(** The inliers of an accepted round were enabled when the loop started
    and are disabled when it ends. *)
Lemma extraction_inliers n i pc log pc' rd p :
  extraction tapes ni th mp n i pc log pc' →
  rd ∈ log → accepted rd → p ∈ r_points rd →
  is_enabled (points pc) p ∧ ¬ is_enabled (points pc') p.
Proof.
  induction 1 as [i pc|n i pc k st Hrun Hk|n i pc k st rest pc' Hrun Hk Hext IH];
    intros Hrd Hacc Hp.
  - by apply elem_of_nil in Hrd.
  - apply list_elem_of_singleton in Hrd as ->.
    apply accepted_round_of in Hacc. lia.
  - apply elem_of_cons in Hrd as [->|Hrd].
    + split; [by eapply ransac_run_points_enabled|].
      intros Hen%(proj2 (extraction_frame _ _ _ _ _ Hext)).
      rewrite without_is_enabled in Hen.
      apply andb_prop_elim in Hen as [_ Hno]. simpl in Hp.
      by rewrite bool_decide_eq_true_2 in Hno.
    + destruct (IH Hrd Hacc Hp) as [Hen Hdis]. split; [|done].
      rewrite without_is_enabled in Hen.
      by apply andb_prop_elim in Hen as [? _].
Qed.

Lemma extraction_disjoint n i pc log pc' :
  extraction tapes ni th mp n i pc log pc' →
  pairwise_disjoint (inlier_sets log).
Proof.
  induction 1 as [i pc|n i pc k st Hrun Hk|n i pc k st rest pc' Hrun Hk Hext IH].
  - done.
  - rewrite inlier_sets_cons_rejected; [done|].
    rewrite accepted_round_of. lia.
  - rewrite inlier_sets_cons_accepted by (by apply accepted_round_of).
    split; [|done]. apply Forall_forall. intros l Hl p Hp Hpl.
    unfold inlier_sets in Hl.
    apply list_elem_of_fmap in Hl as (rd & -> & [Hacc Hrd]%list_elem_of_filter).
    destruct (extraction_inliers _ _ _ _ _ rd p Hext Hrd Hacc Hpl) as [Hen _].
    rewrite without_is_enabled in Hen.
    apply andb_prop_elim in Hen as [_ Hno]. simpl in Hp.
    by rewrite bool_decide_eq_true_2 in Hno.
Qed.

Lemma extraction_count n i pc log pc' :
  extraction tapes ni th mp n i pc log pc' →
  length (pushed log) ≤ n ∧
  (length (pushed log) < n ↔ ∃ rd, rd ∈ log ∧ (r_count rd ≤ 0)%Z).
Proof.
  induction 1 as [i pc|n i pc k st Hrun Hk|n i pc k st rest pc' Hrun Hk Hext IH].
  - simpl. split; [lia|]. split; [lia|].
    by intros (rd & ?%elem_of_nil & _).
  - rewrite pushed_cons_rejected by (rewrite accepted_round_of; lia).
    simpl. split; [lia|]. split; [|lia]. intros _.
    exists (round_of k st). split; [apply list_elem_of_here|done].
  - rewrite pushed_cons_accepted by (by apply accepted_round_of).
    simpl. destruct IH as [Hle Hiff]. split; [lia|]. split.
    + intros Hlt. destruct (proj1 Hiff) as (rd & Hrd & Hc); [lia|].
      exists rd. split; [by apply list_elem_of_further|done].
    + intros (rd & [->|Hrd]%elem_of_cons & Hc); [simpl in Hc; lia|].
      assert (length (pushed rest) < n); [|lia]. apply Hiff. by exists rd.
Qed.

(** What ransac reported in each round of the log. *)
Lemma extraction_rounds n i pc log pc' rd :
  extraction tapes ni th mp n i pc log pc' → rd ∈ log →
  (r_count rd = 0%Z ∨ ((0 < r_count rd)%Z ∧ (mp < r_count rd)%Z)) ∧
  (r_count rd = 0%Z ↔
   Forall (λ c, ¬ ((mp < c)%Z ∧ (0 < c)%Z)) (r_tried rd)) ∧
  ((0 < r_count rd)%Z →
   r_count rd ∈ r_tried rd ∧ r_count rd = Z.of_nat (length (r_points rd))).
Proof.
  assert (∀ tape pc k st pc',
    ransac_run tape ni th mp Slab_default [] pc = Some ((k, st), pc') →
    (k = 0%Z ∨ ((0 < k)%Z ∧ (mp < k)%Z)) ∧
    (k = 0%Z ↔ Forall (λ c, ¬ ((mp < c)%Z ∧ (0 < c)%Z)) (tried st)) ∧
    ((0 < k)%Z → k ∈ tried st ∧ k = Z.of_nat (length (slab_points st)))) as Hround.
  { clear. intros tape pc k st pc' (_ & -> & _ & Hinv)%ransac_run_Some.
    destruct (decide (maxPoints st = 0%Z)) as [Hz|Hnz].
    - destruct (search_inv_unaccepted _ _ _ _ _ _ _ _ Hinv Hz) as (_ & _ & Hall).
      split; [by left|]. split; [done|]. lia.
    - assert (0 < maxPoints st)%Z as Hpos by (destruct Hinv as [? _]; lia).
      destruct (search_inv_accepted _ _ _ _ _ _ _ _ Hinv Hpos)
        as (Hmp & Hin & Hlen & _).
      split; [by right|]. split; [|done]. split; [done|].
      intros Hall. apply (proj1 (Forall_forall _ _) Hall) in Hin. lia. }
  induction 1 as [i pc|n i pc k st Hrun Hk|n i pc k st rest pc' Hrun Hk Hext IH];
    intros Hrd.
  - by apply elem_of_nil in Hrd.
  - apply list_elem_of_singleton in Hrd as ->. by eapply Hround.
  - apply elem_of_cons in Hrd as [->|Hrd]; [by eapply Hround|by apply IH].
Qed.

Lemma length_enabled_ptrs pts : length (enabled_ptrs pts) ≤ length pts.
Proof.
  unfold enabled_ptrs.
  etrans; [apply length_filter|]. by rewrite length_seq.
Qed.

Lemma extraction_total n i pc :
  (Z.of_nat (length (points pc)) ≤ 2 ^ 31)%Z → (ni ≤ Machine.INT_MAX)%Z →
  ∃ log pc', extraction tapes ni th mp n i pc log pc'.
Proof.
  intros Hsz Hni. revert i pc Hsz. induction n as [|n IH]; intros i pc Hsz.
  - exists [], pc. constructor.
  - destruct (ransac_run_total (tapes i) ni th mp Slab_default [] pc)
      as [st Hrun]; [|done|].
    { pose proof (length_enabled_ptrs (points pc)). lia. }
    destruct (decide (maxPoints st ≤ 0)%Z) as [Hle|Hgt].
    + exists [round_of (maxPoints st) st], pc. by eapply extraction_break.
    + destruct (IH (S i) (without (slab_points st) pc)) as (rest & pc' & Hext).
      { by rewrite without_length. }
      exists (round_of (maxPoints st) st :: rest), pc'.
      eapply extraction_accept; [done|lia|done].
Qed.

End Extraction.

Lemma filter_all {A} (P : A → Prop) `{∀ x, Decision (P x)} (l : list A) :
  Forall P l → filter P l = l.
Proof.
  induction 1 as [|x l Hx Hl IH]; [done|].
  rewrite filter_cons, IH. by destruct (decide (P x)).
Qed.

Lemma enabled_ptrs_all pts :
  Forall (λ p, enabled p) pts → enabled_ptrs pts = seq 0 (length pts).
Proof.
  intros Hall. apply filter_all, Forall_forall.
  intros i [_ Hi]%elem_of_seq. unfold is_enabled.
  destruct (lookup_lt_is_Some_2 pts i) as [p Hp]; [lia|]. rewrite Hp.
  eapply (proj1 (Forall_forall _ _) Hall), list_elem_of_lookup_2. done.
Qed.

(** With a bound that narrowed to a negative int, the first iteration
    builds a distribution with a > b. *)
Lemma ransac_narrowed tape ni th mp slab0 sp0 pc :
  enabled_ptrs (points pc) ≠ [] →
  (uni_b (index_distribution (enabled_ptrs (points pc))) < 0)%Z →
  (0 < ni)%Z →
  ransac tape ni th mp slab0 sp0 pc = None.
Proof.
  intros Hne Hneg Hni. unfold ransac. apply bind_None.
  rewrite ransac_run_unfold.
  destruct (Z.to_nat ni) as [|n] eqn:Hn; [lia|]. simpl.
  apply bind_None. by apply ransac_body_narrowed.
Qed.

Lemma ransacMultiple_total tapes np ni th mp slabs pc :
  (Z.of_nat (length (points pc)) ≤ 2 ^ 31)%Z → (ni ≤ Machine.INT_MAX)%Z →
  ∃ r pc', ransacMultiple tapes np ni th mp slabs pc = Some (r, pc').
Proof.
  intros Hsz Hni.
  destruct (extraction_total tapes ni th mp (Z.to_nat np) 0 (all_enabled pc))
    as (log & pc' & Hext); [|done|].
  { unfold all_enabled. simpl. by rewrite length_fmap. }
  exists (Z.of_nat (length (pushed log)), pushed log), pc'.
  apply ransacMultiple_Some. exists log. by apply ransacMultiple_run_Some.
Qed.

Lemma pairwise_disjoint_lookup (ls : list (list nat)) i j l1 l2 p :
  pairwise_disjoint ls → i < j →
  ls !! i = Some l1 → ls !! j = Some l2 → p ∈ l1 → p ∉ l2.
Proof.
  revert i j. induction ls as [|l ls IH]; intros i j Hd Hij Hi Hj Hp; [done|].
  destruct Hd as [Hhead Htail]. destruct j as [|j]; [lia|].
  destruct i as [|i]; simpl in *.
  - injection Hi as ->.
    apply (proj1 (Forall_forall _ _) Hhead l2); [|done].
    by eapply list_elem_of_lookup_2.
  - apply (IH i j); [done|lia|done..].
Qed.

Lemma all_enabled_same_geometry pc1 pc2 :
  same_geometry pc1 pc2 → all_enabled pc1 = all_enabled pc2.
Proof.
  intros (Hb & Hpos & Hnor). apply pointcloud_eq; [|done]. simpl.
  apply list_eq. intros j. rewrite !list_lookup_fmap.
  apply (f_equal (λ l, l !! j)) in Hpos, Hnor.
  rewrite !list_lookup_fmap in Hpos, Hnor.
  destruct (points pc1 !! j) as [[v1 n1 e1]|], (points pc2 !! j) as [[v2 n2 e2]|];
    simpl in *; try done.
  injection Hpos as ->. injection Hnor as ->. done.
Qed.

Lemma ransacMultiple_run_unfold tapes np ni th mp slabs pc :
  ransacMultiple_run tapes np ni th mp slabs pc
  = (r <~ extract_loop tapes ni th mp (Z.to_nat np) 0 [] [] ;;
     ret (Z.of_nat (length r.1), r.1, r.2)) (all_enabled pc).
Proof.
  unfold ransacMultiple_run.
  assert (points_size pc = Some (length (points pc), pc)) as Hs by done.
  run_read Hs. pose proof (enable_all_whole pc) as He. by run He.
Qed.

(** * The claims *)

(** C1: in an iteration of ransac that examines a candidate, the candidate
    becomes the new best exactly when its range-query count is strictly
    greater than min_points and strictly greater than the best count so
    far.  When it does, the recorded state is its count, its inlier list and
    its slab with the corners recomputed from that list; when it does not
    (in particular when the count ties with the best so far) the recorded
    state stays as it was, so the first candidate found wins ties. *)
Theorem ransac_keeps_first_strictly_better
    kdt pp tape th mp st pc stn pc' :
  ransac_body kdt pp tape th mp st pc = Some (Continue stn, pc') →
  ∃ a b c,
    picked (points pc) pp tape (rng st) = Some a ∧
    picked (points pc) pp tape (S (rng st)) = Some b ∧
    picked (points pc) pp tape (S (S (rng st))) = Some c ∧
    let localSlab := Slab_make (fromThreePoints a b c) th in
    let localPoints := inliers (points pc) localSlab (indexed kdt) in
    let numPoints := Z.of_nat (length localPoints) in
    ((mp < numPoints)%Z ∧ (maxPoints st < numPoints)%Z →
     maxPoints stn = numPoints ∧
     slab_points stn = localPoints ∧
     slab stn = {| plane := plane localSlab; thickness := thickness localSlab;
                   corners := slab_extent (plane localSlab)
                                (positions (points pc) localPoints) |}) ∧
    (¬ ((mp < numPoints)%Z ∧ (maxPoints st < numPoints)%Z) →
     maxPoints stn = maxPoints st ∧ slab_points stn = slab_points st ∧
     slab stn = slab st) ∧
    (numPoints = maxPoints st →
     maxPoints stn = maxPoints st ∧ slab_points stn = slab_points st ∧
     slab stn = slab st).
Proof.
  intros (_ & [[_ [=]]|(_ & _ & a & b & c & Ha & Hb & Hc & [= ->])])%ransac_body_Some.
  exists a, b, c. split; [done|]. split; [done|]. split; [done|].
  unfold next_search, candidate_slab. simpl.
  set (n := Z.of_nat (length _)).
  destruct (Z.ltb_spec mp n), (Z.ltb_spec (maxPoints st) n); simpl;
    (split; [try done; lia|]); (split; [try done; lia|]); try done; lia.
Qed.

(** C2: in a call of ransacMultiple the inlier sets of the accepted slabs,
    one per returned slab and in the order of the slabs, are pairwise
    disjoint, and every inlier is a pointer into the cloud the call was
    given.  Each round gathers enabled points only, and the inliers of an
    accepted slab are disabled before the next round, so they are disabled
    on return.  [log] is the record of the rounds the call ran. *)
Theorem ransacMultiple_inliers_disjoint
    tapes np ni th mp slabs pc k slabs' pc' :
  ransacMultiple tapes np ni th mp slabs pc = Some ((k, slabs'), pc') →
  ∃ log,
    ransacMultiple_run tapes np ni th mp slabs pc
    = Some ((k, slabs', log), pc') ∧
    slabs' = pushed log ∧
    length (inlier_sets log) = length slabs' ∧
    (∀ i j l1 l2 p,
       i < j → inlier_sets log !! i = Some l1 →
       inlier_sets log !! j = Some l2 → p ∈ l1 → p ∉ l2) ∧
    (∀ l p, l ∈ inlier_sets log → p ∈ l →
       p < length (points pc) ∧ ¬ is_enabled (points pc') p).
Proof.
  intros (log & Hrun)%ransacMultiple_Some. exists log. split; [done|].
  apply ransacMultiple_run_Some in Hrun as (Hext & -> & _).
  split; [done|]. split; [|split].
  - unfold inlier_sets, pushed. by rewrite !length_fmap.
  - intros i j l1 l2 p. apply pairwise_disjoint_lookup.
    by eapply extraction_disjoint.
  - intros l p Hl Hp. unfold inlier_sets in Hl.
    apply list_elem_of_fmap in Hl as (rd & -> & [Hacc Hrd]%list_elem_of_filter).
    destruct (extraction_inliers _ _ _ _ _ _ _ _ _ rd p Hext Hrd Hacc Hp)
      as [Hen Hdis].
    split; [|done]. apply is_enabled_lt in Hen.
    unfold all_enabled in Hen. simpl in Hen. by rewrite length_fmap in Hen.
Qed.

(** C3, as the code has it: ransacMultiple with num_planes = N returns,
    and returns at most max(N, 0) slabs.  It returns fewer than N exactly
    when the call of ransac of some round returned a value that is not
    positive, which is exactly when that round found no candidate whose
    count is strictly greater than min_points and than zero.  The value
    ransac returns in a round is 0 or strictly greater than min_points.
    (It returns whenever the cloud has at most 2^31 points and num_iters
    fits the int counter of the loop of ransac.) *)
Theorem ransacMultiple_count_bounded_by_planes
    tapes np ni th mp slabs pc :
  ((Z.of_nat (length (points pc)) ≤ 2 ^ 31)%Z → (ni ≤ Machine.INT_MAX)%Z →
   ∃ r pc', ransacMultiple tapes np ni th mp slabs pc = Some (r, pc')) ∧
  (∀ k slabs' pc',
     ransacMultiple tapes np ni th mp slabs pc = Some ((k, slabs'), pc') →
     ∃ log,
       ransacMultiple_run tapes np ni th mp slabs pc
       = Some ((k, slabs', log), pc') ∧
       k = Z.of_nat (length slabs') ∧
       (k ≤ Z.max np 0)%Z ∧
       ((k < np)%Z ↔ ∃ rd, rd ∈ log ∧ (r_count rd ≤ 0)%Z) ∧
       ((k < np)%Z ↔
        ∃ rd, rd ∈ log ∧
              Forall (λ c, ¬ ((mp < c)%Z ∧ (0 < c)%Z)) (r_tried rd)) ∧
       (∀ rd, rd ∈ log →
          r_count rd = 0%Z ∨ ((0 < r_count rd)%Z ∧ (mp < r_count rd)%Z))).
Proof.
  split; [apply ransacMultiple_total|].
  intros k slabs' pc' (log & Hrun)%ransacMultiple_Some.
  exists log. split; [done|].
  apply ransacMultiple_run_Some in Hrun as (Hext & -> & ->).
  destruct (extraction_count _ _ _ _ _ _ _ _ _ Hext) as [Hle Hiff].
  assert ((Z.of_nat (length (pushed log)) < np)%Z
          ↔ length (pushed log) < Z.to_nat np) as Hlt by lia.
  split; [done|]. split; [lia|]. split; [by rewrite Hlt|]. split.
  - rewrite Hlt, Hiff. split; intros (rd & Hrd & H); exists rd; (split; [done|]);
      destruct (extraction_rounds _ _ _ _ _ _ _ _ _ rd Hext Hrd)
        as (Hcases & Hzero & _).
    + apply Hzero. lia.
    + apply Hzero in H. lia.
  - intros rd Hrd.
    by destruct (extraction_rounds _ _ _ _ _ _ _ _ _ rd Hext Hrd) as (? & _).
Qed.

(** C4: empty input is answered, not refused.  With no enabled point ransac
    returns 0; with num_iters <= 0 it returns 0; in both cases the slab and
    slab_points arguments come back as they were passed.  ransacMultiple on
    a cloud without points returns no slab. *)
Theorem ransac_empty_input_returns_zero tape ni th mp slab0 sp0 pc :
  (enabled_ptrs (points pc) = [] →
   ransac tape ni th mp slab0 sp0 pc = Some ((0%Z, slab0, sp0), pc)) ∧
  ((ni ≤ 0)%Z →
   ransac tape ni th mp slab0 sp0 pc = Some ((0%Z, slab0, sp0), pc)) ∧
  (∀ tapes np slabs,
     points pc = [] →
     ransacMultiple tapes np ni th mp slabs pc = Some ((0%Z, []), pc)).
Proof.
  split; [|split].
  - intros He. unfold ransac. by run_read (ransac_run_empty tape ni th mp slab0 sp0 pc He).
  - intros Hni. unfold ransac. by run_read (ransac_run_no_iters tape ni th mp slab0 sp0 pc Hni).
  - intros tapes np slabs Hpts.
    assert (all_enabled pc = pc) as Hall.
    { apply pointcloud_eq; [|done]. simpl. by rewrite Hpts. }
    apply ransacMultiple_Some.
    destruct (Z.to_nat np) as [|n] eqn:Hn.
    + exists []. apply ransacMultiple_run_Some. rewrite Hn, Hall.
      split; [constructor|done].
    + exists [round_of 0 (initial_search Slab_default [])].
      apply ransacMultiple_run_Some. rewrite Hn, Hall. split; [|done].
      eapply extraction_break; [|done].
      apply ransac_run_empty. by rewrite Hpts.
Qed.

(** C6: ransacMultiple first sets the enabled flag of every point, and the
    rounds run on the cloud so prepared.  Two clouds that differ only in
    the flags earlier calls left behind give the same result and end in the
    same state. *)
Theorem ransacMultiple_resets_enabled_flags tapes np ni th mp slabs pc :
  (∀ p, p ∈ points (all_enabled pc) → enabled p = true) ∧
  ransacMultiple_run tapes np ni th mp slabs pc
  = (r <~ extract_loop tapes ni th mp (Z.to_nat np) 0 [] [] ;;
     ret (Z.of_nat (length r.1), r.1, r.2)) (all_enabled pc) ∧
  (∀ pc2, same_geometry pc pc2 →
     ransacMultiple tapes np ni th mp slabs pc
     = ransacMultiple tapes np ni th mp slabs pc2).
Proof.
  split; [|split].
  - intros p (q & -> & _)%list_elem_of_fmap. done.
  - apply ransacMultiple_run_unfold.
  - intros pc2 Hsame. unfold ransacMultiple, bind.
    by rewrite !ransacMultiple_run_unfold, (all_enabled_same_geometry _ _ Hsame).
Qed.

(** C7: a call of ransac leaves the point store as it found it: every
    position, normal and enabled flag and the bounding box are the same on
    return, each iteration included; the index is the one built before the
    loop from the pointers to the enabled points, and the loop only queries
    it. *)
Theorem ransac_leaves_cloud_unchanged tape ni th mp slab0 sp0 pc :
  (∀ r pc', ransac tape ni th mp slab0 sp0 pc = Some (r, pc') → pc' = pc) ∧
  (∀ kdt pp st r pc',
     ransac_body kdt pp tape th mp st pc = Some (r, pc') → pc' = pc) ∧
  ransac_run tape ni th mp slab0 sp0 pc
  = ransac_loop (PointKDTree_build (enabled_ptrs (points pc)))
      (enabled_ptrs (points pc)) tape th mp (Z.to_nat ni) 0
      (initial_search slab0 sp0) pc.
Proof.
  split; [|split].
  - intros [[k s] ps] pc' (st & Hrun & _)%ransac_Some.
    by apply ransac_run_Some in Hrun as (-> & _).
  - intros kdt pp st r pc' Hbody. by apply ransac_body_Some in Hbody as [-> _].
  - apply ransac_run_unfold.
Qed.

(** C8, as the code has it: an iteration that reaches the sampling step has
    a non-empty array of enabled points, and with no enabled point the
    iteration returns 0 before any distribution is built (its bound would
    be -1).  When the array holds at most 2^31 pointers, the bound size - 1
    survives the narrowing to int, every index the distribution yields lies
    in [0, size - 1], and the iteration completes without indexing out of
    range. *)
Theorem ransac_sampling_in_bounds kdt pp tape th mp st pc :
  ransac_body kdt [] tape th mp st pc = Some (Return 0, pc) ∧
  uni_b (index_distribution []) = (-1)%Z ∧
  (∀ stn pc',
     ransac_body kdt pp tape th mp st pc = Some (Continue stn, pc') → pp ≠ []) ∧
  (pp ≠ [] → (Z.of_nat (length pp) ≤ 2 ^ 31)%Z →
   uni_b (index_distribution pp) = (Z.of_nat (length pp) - 1)%Z ∧
   (∀ cur,
      (0 ≤ (draw (index_distribution pp) tape cur).1
         ≤ Z.of_nat (length pp) - 1)%Z ∧
      is_Some (pp !! Z.to_nat (draw (index_distribution pp) tape cur).1)) ∧
   (Forall (λ p, p < length (points pc)) pp →
    Forall (λ p, p < length (points pc)) (indexed kdt) →
    ∃ stn, ransac_body kdt pp tape th mp st pc = Some (Continue stn, pc))).
Proof.
  split; [done|]. split; [apply to_int_size_zero|]. split.
  - intros stn pc' (_ & [[_ [=]]|(Hne & _)])%ransac_body_Some. done.
  - intros Hne Hsz.
    assert (0 < Z.of_nat (length pp))%Z as Hpos by (destruct pp; [done|simpl; lia]).
    assert (uni_b (index_distribution pp) = (Z.of_nat (length pp) - 1)%Z) as Hb.
    { simpl. apply to_int_size_minus_one. lia. }
    split; [done|]. split.
    + intros cur.
      assert (index_distribution pp
              = {| uni_a := 0; uni_b := Z.of_nat (length pp) - 1 |}) as ->
        by (unfold index_distribution; f_equal; exact Hb).
      pose proof (draw_bounds 0 (Z.of_nat (length pp) - 1) tape cur
                    ltac:(lia)) as Hd.
      split; [done|]. apply lookup_lt_is_Some_2. lia.
    + intros Hv Hk.
      destruct (ransac_body_valid kdt pp tape th mp st pc Hne Hsz Hv Hk)
        as (a & b & c & _ & _ & _ & Hbody).
      by eexists.
Qed.

(** C9: when ransac returns a count k > 0, slab_points holds exactly k
    pointers, each to a point that was enabled when the call started; it is
    the range-query answer of the returned slab against the enabled points,
    and the corners of the returned slab are those computed from exactly
    these points. *)
Theorem ransac_positive_count_describes_result
    tape ni th mp slab0 sp0 pc k s ps pc' :
  ransac tape ni th mp slab0 sp0 pc = Some ((k, s, ps), pc') →
  (0 < k)%Z →
  Z.of_nat (length ps) = k ∧
  (∀ p, p ∈ ps → is_enabled (points pc) p) ∧
  ps = inliers (points pc) s (enabled_ptrs (points pc)) ∧
  corners s = slab_extent (plane s) (positions (points pc) ps).
Proof.
  intros (st & Hrun & -> & ->)%ransac_Some Hk.
  pose proof Hrun as (-> & -> & _ & Hinv)%ransac_run_Some.
  destruct (search_inv_accepted _ _ _ _ _ _ _ _ Hinv Hk)
    as (_ & _ & Hlen & Hps & _ & Hcorners & _).
  split; [done|]. split; [|done].
  intros p Hp. by eapply ransac_run_points_enabled.
Qed.

(** C10: ransacMultiple empties the vector it is given before the loop, so
    what it held plays no part; on return the vector holds the accepted
    slabs in the order they were found, and the value returned is its
    length. *)
Theorem ransacMultiple_clears_slabs tapes np ni th mp slabs pc :
  (∀ slabs2,
     ransacMultiple tapes np ni th mp slabs pc
     = ransacMultiple tapes np ni th mp slabs2 pc) ∧
  (∀ k slabs' pc',
     ransacMultiple tapes np ni th mp slabs pc = Some ((k, slabs'), pc') →
     k = Z.of_nat (length slabs') ∧
     ∃ log, extraction tapes ni th mp (Z.to_nat np) 0 (all_enabled pc) log pc' ∧
            slabs' = pushed log).
Proof.
  split.
  - intros slabs2. unfold ransacMultiple, bind.
    by rewrite !ransacMultiple_run_unfold.
  - intros k slabs' pc' (log & (Hext & -> & ->)%ransacMultiple_run_Some)%ransacMultiple_Some.
    split; [done|]. by exists log.
Qed.

End Properties.

(** * Degenerate samples, over the geometry modelled from the spec *)

Section DegenerateSamples.

Import Exact.

#[local] Existing Instance geometry.

Implicit Types (pc : PointCloud) (pts : list Point) (pp ps : list nat).
Implicit Types (st : search) (s : Slab) (tape : nat → Z) (a b c : V3).

Lemma through_on_a_line a b c : on_a_line a b c → through a b c = Flagged.
Proof. unfold through. by destruct (on_a_line a b c). Qed.

Lemma through_off_a_line a b c :
  on_a_line a b c = false → flagged (through a b c) = false.
Proof. unfold through. by intros ->. Qed.

Lemma flagged_no_inliers pts s ps : flagged (plane s) → inliers pts s ps = [].
Proof.
  intros Hflag. induction ps as [|p ps IH]; [done|].
  rewrite inliers_cons, IH. unfold inside, Slab_contains. simpl.
  destruct (plane s); [|done]. by destruct (pts !! p).
Qed.

Lemma collinear_no_inliers pts th a b c ps :
  on_a_line a b c → inliers pts (candidate_slab th a b c) ps = [].
Proof.
  intros Hline. apply flagged_no_inliers. unfold candidate_slab. simpl.
  by rewrite through_on_a_line.
Qed.

(** C5, over the plane fit and the membership test as sections 3 and 4.2
    of the spec describe them.  ransac itself tests no flag: what keeps a
    degenerate sample out is that its slab contains nothing and that
    maxPoints, which starts at 0 and never decreases, is compared with a
    strict >.
    - An iteration whose three sampled positions are collinear gets a
      flagged plane and an empty range-query answer; the pass is defined
      and leaves maxPoints, the slab and the slab points as they were,
      using up its three draws and recording a count of 0.
    - Over a whole call, every iteration that sampled a collinear triple
      has the count 0 on record.
    - A slab returned with a positive count is the fit of three sampled
      positions that are not collinear, and is not flagged. *)
Theorem ransac_collinear_sample_is_skipped :
  (∀ kdt pp tape th mp st pc a b c,
     pp ≠ [] → (Z.of_nat (length pp) ≤ 2 ^ 31)%Z →
     Forall (λ p, p < length (points pc)) pp →
     Forall (λ p, p < length (points pc)) (indexed kdt) →
     (0 ≤ maxPoints st)%Z →
     picked (points pc) pp tape (rng st) = Some a →
     picked (points pc) pp tape (S (rng st)) = Some b →
     picked (points pc) pp tape (S (S (rng st))) = Some c →
     collinear a b c →
     flagged (fromThreePoints a b c) ∧
     inliers (points pc) (candidate_slab th a b c) (indexed kdt) = [] ∧
     ransac_body kdt pp tape th mp st pc
     = Some (Continue {| maxPoints := maxPoints st; slab := slab st;
                         slab_points := slab_points st;
                         rng := S (S (S (rng st)));
                         tried := tried st ++ [0%Z] |}, pc)) ∧
  (∀ tape ni th mp slab0 sp0 pc k st pc' j a b c,
     ransac_run tape ni th mp slab0 sp0 pc = Some ((k, st), pc') →
     j < length (tried st) →
     picked (points pc) (enabled_ptrs (points pc)) tape (3 * j) = Some a →
     picked (points pc) (enabled_ptrs (points pc)) tape (S (3 * j)) = Some b →
     picked (points pc) (enabled_ptrs (points pc)) tape (S (S (3 * j)))
     = Some c →
     collinear a b c →
     tried st !! j = Some 0%Z) ∧
  (∀ tape ni th mp slab0 sp0 pc k s ps pc',
     ransac tape ni th mp slab0 sp0 pc = Some ((k, s, ps), pc') →
     (0 < k)%Z →
     flagged (plane s) = false ∧
     ∃ cur a b c,
       picked (points pc) (enabled_ptrs (points pc)) tape cur = Some a ∧
       picked (points pc) (enabled_ptrs (points pc)) tape (S cur) = Some b ∧
       picked (points pc) (enabled_ptrs (points pc)) tape (S (S cur))
       = Some c ∧
       collinear a b c = false ∧
       plane s = fromThreePoints a b c).
Proof.
  split; [|split].
  - intros kdt pp tape th mp st pc a b c Hne Hsz Hv Hk Hmax Ha Hb Hc Hline.
    pose proof (collinear_no_inliers (points pc) th a b c (indexed kdt) Hline)
      as Hnone.
    split; [simpl; by rewrite through_on_a_line|]. split; [done|].
    destruct (ransac_body_valid kdt pp tape th mp st pc Hne Hsz Hv Hk)
      as (a' & b' & c' & Ha' & Hb' & Hc' & ->).
    rewrite Ha in Ha'. rewrite Hb in Hb'. rewrite Hc in Hc'.
    injection Ha' as <-. injection Hb' as <-. injection Hc' as <-.
    unfold next_search. rewrite Hnone. simpl.
    change (Z.of_nat 0) with 0%Z.
    destruct (Z.ltb_spec (maxPoints st) 0); [lia|].
    by rewrite andb_false_r.
  - intros tape ni th mp slab0 sp0 pc k st pc' j a b c Hrun Hj Ha Hb Hc Hline.
    destruct (ransac_run_tried_counts _ _ _ _ _ _ _ _ _ _ Hrun) as [_ Hcounts].
    destruct (lookup_lt_is_Some_2 (tried st) j Hj) as [n Hn].
    destruct (Hcounts j n Hn) as (a' & b' & c' & Ha' & Hb' & Hc' & ->).
    rewrite Ha in Ha'. rewrite Hb in Hb'. rewrite Hc in Hc'.
    injection Ha' as <-. injection Hb' as <-. injection Hc' as <-.
    by rewrite Hn, collinear_no_inliers.
  - intros tape ni th mp slab0 sp0 pc k s ps pc'
      (st & (_ & -> & _ & Hinv)%ransac_run_Some & -> & _)%ransac_Some Hk.
    destruct (search_inv_accepted _ _ _ _ _ _ _ _ Hinv Hk)
      as (_ & _ & Hlen & Hps & _ & _ & cur & a & b & c & Ha & Hb & Hc & Hpl).
    assert (on_a_line a b c = false) as Hoff.
    { destruct (on_a_line a b c) eqn:Hline; [|done].
      rewrite flagged_no_inliers in Hps.
      - rewrite Hps in Hlen. simpl in Hlen. lia.
      - rewrite Hpl. change (Is_true (flagged (through a b c))).
        unfold through. by rewrite Hline. }
    split.
    + rewrite Hpl. by apply through_off_a_line.
    + by exists cur, a, b, c.
Qed.

End DegenerateSamples.

(** * The claims on concrete clouds *)

Section Examples.

Import Exact.

Abbreviation sq := square_and_outlier.

(** An iteration on the square with an outlier: the first candidate, with
    four inliers against min_points = 2, is recorded. *)
Lemma ransac_keeps_first_strictly_better_witness :
  ransac_body (G := geometry) (PointKDTree_build [0; 1; 2; 3; 4])
    [0; 1; 2; 3; 4] tape012 1%Z 2 (initial_search Slab_default []) sq
  = Some (Continue square_search, sq) ∧
  ∃ a b c : V3,
    picked (G := geometry) (points sq) [0; 1; 2; 3; 4] tape012 0 = Some a ∧
    picked (G := geometry) (points sq) [0; 1; 2; 3; 4] tape012 1 = Some b ∧
    picked (G := geometry) (points sq) [0; 1; 2; 3; 4] tape012 2 = Some c.
Proof.
  assert (ransac_body (G := geometry) (PointKDTree_build [0; 1; 2; 3; 4])
            [0; 1; 2; 3; 4] tape012 1%Z 2 (initial_search Slab_default []) sq
          = Some (Continue square_search, sq)) as H
    by reflexivity.
  split; [exact H|].
  destruct (ransac_keeps_first_strictly_better _ _ _ _ _ _ _ _ _ H)
    as (a & b & c & Ha & Hb & Hc & _).
  exists a, b, c. split; [exact Ha|]. split; [exact Hb|exact Hc].
Defined.

(** ransac on the square with an outlier returns 4 and the four points of
    the square. *)
Lemma ransac_positive_count_describes_result_witness :
  ransac (G := geometry) tape012 3 1%Z 2 Slab_default [] sq
  = Some ((4%Z, slab square_search, [0; 1; 2; 3]), sq) ∧
  (0 < 4)%Z ∧
  [0; 1; 2; 3]
  = inliers (points sq) (slab square_search) (enabled_ptrs (points sq)).
Proof.
  assert (ransac (G := geometry) tape012 3 1%Z 2 Slab_default [] sq
          = Some ((4%Z, slab square_search, [0; 1; 2; 3]), sq)) as H
    by reflexivity.
  split; [exact H|]. split; [lia|].
  exact (proj1 (proj2 (proj2
    (ransac_positive_count_describes_result _ _ _ _ _ _ _ _ _ _ _ H
       ltac:(lia))))).
Defined.

(** The same call returns the cloud it was given. *)
Lemma ransac_leaves_cloud_unchanged_witness :
  ∃ pc',
    ransac (G := geometry) tape012 3 1%Z 2 Slab_default [] sq
    = Some ((4%Z, slab square_search, [0; 1; 2; 3]), pc') ∧
    pc' = sq.
Proof.
  assert (ransac (G := geometry) tape012 3 1%Z 2 Slab_default [] sq
          = Some ((4%Z, slab square_search, [0; 1; 2; 3]), sq)) as H
    by reflexivity.
  exists sq. split; [exact H|].
  exact (proj1 (ransac_leaves_cloud_unchanged (G := geometry)
                  tape012 3 1%Z 2 Slab_default [] sq) _ sq H).
Defined.

(** No enabled point, no iteration, no point at all. *)
Lemma ransac_empty_input_returns_zero_witness :
  (enabled_ptrs (points square_and_outlier_used) = [] ∧
   ransac (G := geometry) tape012 3 1%Z 2 Slab_default [7]
     square_and_outlier_used
   = Some ((0%Z, Slab_default, [7]), square_and_outlier_used)) ∧
  ((0 ≤ 0)%Z ∧
   ransac (G := geometry) tape012 0 1%Z 2 Slab_default [7] sq
   = Some ((0%Z, Slab_default, [7]), sq)) ∧
  (points (cloud []) = [] ∧
   ransacMultiple (G := geometry) tapes012 3 3 1%Z 2 [Slab_default] (cloud [])
   = Some ((0%Z, []), cloud [])).
Proof.
  split; [|split].
  - assert (enabled_ptrs (points square_and_outlier_used) = []) as H
      by reflexivity.
    split; [exact H|].
    exact (proj1 (ransac_empty_input_returns_zero (G := geometry)
                    tape012 3 1%Z 2 Slab_default [7] square_and_outlier_used) H).
  - assert (0 ≤ 0)%Z as H by lia. split; [exact H|].
    exact (proj1 (proj2 (ransac_empty_input_returns_zero (G := geometry)
                           tape012 0 1%Z 2 Slab_default [7] sq)) H).
  - assert (points (cloud []) = []) as H by reflexivity. split; [exact H|].
    exact (proj2 (proj2 (ransac_empty_input_returns_zero (G := geometry)
                           tape012 3 1%Z 2 Slab_default [] (cloud [])))
             tapes012 3%Z [Slab_default] H).
Defined.

(** Three planes asked of the square and the triangle: two are found,
    with one inlier set each. *)
Lemma ransacMultiple_inliers_disjoint_witness :
  ∃ slabs' pc' log,
    ransacMultiple (G := geometry) tapes012 3 3 1%Z 0 [] square_and_triangle
    = Some ((2%Z, slabs'), pc') ∧
    ransacMultiple_run (G := geometry) tapes012 3 3 1%Z 0 [] square_and_triangle
    = Some ((2%Z, slabs', log), pc') ∧
    length (inlier_sets log) = length slabs'.
Proof.
  assert (ransacMultiple (G := geometry) tapes012 3 3 1%Z 0 [] square_and_triangle
          = (r <~ (λ _, square_extraction) ;; ret (r.1.1, r.1.2)) square_and_triangle) as H
    by reflexivity.
  unfold square_extraction, bind, ret in H.
  destruct (ransacMultiple_inliers_disjoint _ _ _ _ _ _ _ _ _ _ H)
    as (log & Hrun & _ & Hlen & _).
  eexists _, _, log. split; [exact H|]. split; [exact Hrun|exact Hlen].
Defined.

(** The same extraction stays within the three planes asked for. *)
Lemma ransacMultiple_count_bounded_by_planes_witness :
  ∃ slabs' pc',
    ransacMultiple (G := geometry) tapes012 3 3 1%Z 0 [] square_and_triangle
    = Some ((2%Z, slabs'), pc') ∧
    (2 ≤ Z.max 3 0)%Z.
Proof.
  assert (ransacMultiple (G := geometry) tapes012 3 3 1%Z 0 [] square_and_triangle
          = (r <~ (λ _, square_extraction) ;; ret (r.1.1, r.1.2)) square_and_triangle) as H
    by reflexivity.
  unfold square_extraction, bind, ret in H.
  destruct (proj2 (ransacMultiple_count_bounded_by_planes (G := geometry)
                     tapes012 3%Z 3%Z 1%Z 0%Z [] square_and_triangle) _ _ _ H)
    as (log & _ & _ & Hle & _).
  eexists _, _. split; [exact H|exact Hle].
Defined.

(** An iteration that samples one point of [two_points] three times
    records a count of 0 and nothing else; two such iterations make a call
    that returns 0; the square of [sq] comes back unflagged. *)
Lemma ransac_collinear_sample_is_skipped_witness :
  (picked (G := geometry) (points two_points) [0; 1] (constant_tape 0) 0
   = Some (0, 0, 0)%Z ∧
   collinear (Geometry := geometry) (0, 0, 0)%Z (0, 0, 0)%Z (0, 0, 0)%Z ∧
   ransac_body (G := geometry) (PointKDTree_build [0; 1]) [0; 1]
     (constant_tape 0) 1%Z 0 (initial_search Slab_default []) two_points
   = Some (Continue line_search, two_points)) ∧
  (ransac_run (G := geometry) (constant_tape 0) 2 1%Z 0 Slab_default []
     two_points
   = Some ((0%Z, line_searches), two_points) ∧
   tried line_searches !! 1 = Some 0%Z) ∧
  (ransac (G := geometry) tape012 3 1%Z 2 Slab_default [] sq
   = Some ((4%Z, slab square_search, [0; 1; 2; 3]), sq) ∧
   flagged (plane (slab square_search)) = false).
Proof.
  assert ([0; 1] ≠ @nil nat) as Hne by discriminate.
  assert (Z.of_nat (length [0; 1]) ≤ 2 ^ 31)%Z as Hsz
    by (vm_compute; discriminate).
  assert (Forall (λ p, p < length (points two_points)) [0; 1]) as Hv
    by (repeat constructor).
  assert (0 ≤ maxPoints (initial_search (G := geometry) Slab_default []))%Z
    as Hmax by reflexivity.
  assert (picked (G := geometry) (points two_points) [0; 1] (constant_tape 0) 0
          = Some (0, 0, 0)%Z) as H0 by reflexivity.
  assert (picked (G := geometry) (points two_points) [0; 1] (constant_tape 0) 1
          = Some (0, 0, 0)%Z) as H1 by reflexivity.
  assert (picked (G := geometry) (points two_points) [0; 1] (constant_tape 0) 2
          = Some (0, 0, 0)%Z) as H2 by reflexivity.
  assert (collinear (Geometry := geometry) (0, 0, 0)%Z (0, 0, 0)%Z (0, 0, 0)%Z)
    as Hline by exact I.
  assert (ransac_run (G := geometry) (constant_tape 0) 2 1%Z 0 Slab_default []
            two_points
          = Some ((0%Z, line_searches), two_points)) as Hrun by reflexivity.
  assert (1 < length (tried line_searches)) as Hj by (simpl; lia).
  assert (picked (G := geometry) (points two_points)
            (enabled_ptrs (points two_points)) (constant_tape 0) (3 * 1)
          = Some (0, 0, 0)%Z) as H3 by reflexivity.
  assert (picked (G := geometry) (points two_points)
            (enabled_ptrs (points two_points)) (constant_tape 0) (S (3 * 1))
          = Some (0, 0, 0)%Z) as H4 by reflexivity.
  assert (picked (G := geometry) (points two_points)
            (enabled_ptrs (points two_points)) (constant_tape 0)
            (S (S (3 * 1)))
          = Some (0, 0, 0)%Z) as H5 by reflexivity.
  assert (ransac (G := geometry) tape012 3 1%Z 2 Slab_default [] sq
          = Some ((4%Z, slab square_search, [0; 1; 2; 3]), sq)) as Hsq
    by reflexivity.
  assert (0 < 4)%Z as Hk by lia.
  destruct ransac_collinear_sample_is_skipped as (Hbody & Hcall & Hbest).
  split; [|split].
  - split; [exact H0|]. split; [exact Hline|].
    exact (proj2 (proj2 (Hbody (PointKDTree_build [0; 1]) [0; 1]
                           (constant_tape 0) 1%Z 0%Z
                           (initial_search Slab_default []) two_points
                           _ _ _ Hne Hsz Hv Hv Hmax H0 H1 H2 Hline))).
  - split; [exact Hrun|].
    exact (Hcall _ _ _ _ _ _ _ _ _ _ 1 _ _ _ Hrun Hj H3 H4 H5 Hline).
  - split; [exact Hsq|].
    exact (proj1 (Hbest _ _ _ _ _ _ _ _ _ _ _ Hsq Hk)).
Defined.

(** The square with an outlier, fresh and with every flag cleared by an
    earlier extraction, gives the same extraction. *)
Lemma ransacMultiple_resets_enabled_flags_witness :
  same_geometry sq square_and_outlier_used ∧
  ransacMultiple (G := geometry) tapes012 3 3 1%Z 0 [] sq
  = ransacMultiple (G := geometry) tapes012 3 3 1%Z 0 []
      square_and_outlier_used.
Proof.
  assert (same_geometry sq square_and_outlier_used) as H
    by (split; [reflexivity|split; reflexivity]).
  split; [exact H|].
  exact (proj2 (proj2 (ransacMultiple_resets_enabled_flags (G := geometry)
                         tapes012 3 3 1%Z 0 [] sq))
           square_and_outlier_used H).
Defined.

(** The slab the vector held on entry is gone on return. *)
Lemma ransacMultiple_clears_slabs_witness :
  ∃ slabs' pc',
    ransacMultiple (G := geometry) tapes012 3 3 1%Z 0 [Slab_default] square_and_triangle
    = Some ((2%Z, slabs'), pc') ∧
    2%Z = Z.of_nat (length slabs').
Proof.
  assert (ransacMultiple (G := geometry) tapes012 3 3 1%Z 0 [Slab_default] square_and_triangle
          = (r <~ (λ _, square_extraction) ;; ret (r.1.1, r.1.2)) square_and_triangle) as H
    by reflexivity.
  unfold square_extraction, bind, ret in H.
  eexists _, _. split; [exact H|].
  exact (proj1 (proj2 (ransacMultiple_clears_slabs (G := geometry)
                         tapes012 3 3 1%Z 0 [Slab_default] square_and_triangle) _ _ _ H)).
Defined.

(** Five enabled points: the distribution is built on [0, 4]. *)
Lemma ransac_sampling_in_bounds_witness :
  ([0; 1; 2; 3; 4] ≠ [] ∧ (Z.of_nat (length [0; 1; 2; 3; 4]) ≤ 2 ^ 31)%Z) ∧
  uni_b (index_distribution [0; 1; 2; 3; 4]) = 4%Z.
Proof.
  assert ([0; 1; 2; 3; 4] ≠ []) as Hne by discriminate.
  assert (Z.of_nat (length [0; 1; 2; 3; 4]) ≤ 2 ^ 31)%Z as Hsz
    by (vm_compute; discriminate).
  split; [split; [exact Hne|exact Hsz]|].
  exact (proj1 (proj2 (proj2 (proj2 (ransac_sampling_in_bounds (G := geometry)
                  (PointKDTree_build [0; 1; 2; 3; 4]) [0; 1; 2; 3; 4]
                  tape012 1%Z 2 (initial_search Slab_default []) sq)))
                Hne Hsz)).
Defined.

(** C3 fails as stated on two inputs.  With num_planes = -1 no round runs
    and the 0 slabs returned are more than N.  With min_points = -1 and a
    negative thickness every candidate of the only round has count 0, which
    is greater than min_points, and still the call returns fewer than
    N = 1 slabs. *)
Lemma ransacMultiple_negative_inputs :
  (ransacMultiple (G := geometry) tapes012 (-1) 3 1%Z 0 [] sq
   = Some ((0%Z, []), all_enabled sq) ∧
   ¬ (Z.of_nat (length (@nil (Slab (G := geometry)))) ≤ -1)%Z) ∧
  (ransacMultiple_run (G := geometry) tapes012 1 3 (-1)%Z (-1) [] sq
   = Some ((0%Z, [],
            [mkRound (G := geometry) 0 Slab_default [] [0; 0; 0]%Z]),
           all_enabled sq) ∧
   (0 < 1)%Z ∧
   ¬ ∃ rd, rd ∈ [mkRound (G := geometry) 0 Slab_default [] [0; 0; 0]%Z] ∧
           Forall (λ c, ¬ (-1 < c)%Z) (r_tried rd)).
Proof.
  split; [split|split; [|split]].
  - reflexivity.
  - simpl. lia.
  - reflexivity.
  - lia.
  - intros (rd & ->%list_elem_of_singleton & Hall). simpl in Hall.
    apply Forall_cons in Hall as [Hc _]. lia.
Qed.

(** C8 fails as stated on a cloud of 2^31 + 1 enabled points: size - 1
    narrows to the int -2^31, so the first iteration builds its distribution
    on the empty range [0, -2^31] and no index is defined. *)
Lemma ransac_sampling_narrowed_bound :
  uni_b (index_distribution (enabled_ptrs (points huge)))
  = (-2147483648)%Z ∧
  ransac (G := geometry) tape012 1 1%Z 0 Slab_default [] huge = None.
Proof.
  unfold huge.
  assert (Z.of_nat (Pos.to_nat 2147483649) = 2147483649%Z) as HN
    by apply positive_nat_Z.
  assert (0 < Pos.to_nat 2147483649) as Hpos by apply Pos2Nat.is_pos.
  revert HN Hpos. generalize (Pos.to_nat 2147483649). intros N HN Hpos.
  assert (enabled_ptrs (points (cloud (replicate N (0, 0, 0)%Z))) = seq 0 N)
    as Hpp.
  { rewrite enabled_ptrs_all.
    - unfold cloud. simpl. by rewrite length_fmap, length_replicate.
    - apply Forall_forall. unfold cloud. simpl.
      by intros p (v & -> & _)%list_elem_of_fmap. }
  assert (uni_b (index_distribution (seq 0 N)) = (-2147483648)%Z) as Hb.
  { unfold index_distribution. simpl. rewrite length_seq, HN. reflexivity. }
  rewrite Hpp. split; [exact Hb|].
  apply ransac_narrowed.
  - rewrite Hpp. destruct N; [lia|done].
  - rewrite Hpp, Hb. lia.
  - lia.
Qed.

End Examples.

(** * More about ransac *)

Section MoreRansac.

Context `{G : Geometry}.

Implicit Types (pc : PointCloud) (pts : list Point) (pp ps : list nat).
Implicit Types (st : search) (s : Slab) (tape : nat → Z).

Lemma first_best_initial pts pp tape th slab0 sp0 :
  first_best pts pp tape th (initial_search slab0 sp0).
Proof. split; [done|by left]. Qed.

Lemma first_best_next pts pp tape th mp slab0 sp0 st a b c :
  picked pts pp tape (rng st) = Some a →
  picked pts pp tape (S (rng st)) = Some b →
  picked pts pp tape (S (S (rng st))) = Some c →
  search_inv pts pp tape th mp slab0 sp0 st →
  first_best pts pp tape th st →
  first_best pts pp tape th
    (next_search pts (PointKDTree_build pp) th mp a b c st).
Proof.
  intros Ha Hb Hc (Hmax & Htried & _) [Hrng Hbest]. unfold next_search. simpl.
  set (found := inliers pts (candidate_slab th a b c) pp).
  set (n := Z.of_nat (length found)).
  destruct (Z.ltb_spec mp n) as [Hmp|Hmp]; simpl;
    [destruct (Z.ltb_spec (maxPoints st) n) as [Hbig|Hbig]|];
    unfold first_best;
    cbn [maxPoints slab slab_points rng tried plane];
    rewrite length_app; cbn [length];
    (split; [lia|]).
  - right. exists (length (tried st)), a, b, c.
    rewrite <- Hrng. split; [by apply list_lookup_middle|].
    split; [|done].
    intros i m Hi Hm. rewrite lookup_app_l in Hm by done.
    apply (proj1 (Forall_lookup _ _) Htried) in Hm as [? Hm]. lia.
  - destruct Hbest as [?|(j & a' & b' & c' & Hj & Hless & H)]; [by left|].
    right. exists j, a', b', c'.
    pose proof (lookup_lt_Some _ _ _ Hj) as Hlt.
    split; [by rewrite lookup_app_l|]. split; [|done].
    intros i m Hi Hm. rewrite lookup_app_l in Hm by lia. by eapply Hless.
  - destruct Hbest as [?|(j & a' & b' & c' & Hj & Hless & H)]; [by left|].
    right. exists j, a', b', c'.
    pose proof (lookup_lt_Some _ _ _ Hj) as Hlt.
    split; [by rewrite lookup_app_l|]. split; [|done].
    intros i m Hi Hm. rewrite lookup_app_l in Hm by lia. by eapply Hless.
Qed.

Lemma ransac_run_first_best tape ni th mp slab0 sp0 pc k st pc' :
  ransac_run tape ni th mp slab0 sp0 pc = Some ((k, st), pc') →
  search_inv (points pc) (enabled_ptrs (points pc)) tape th mp slab0 sp0 st ∧
  first_best (points pc) (enabled_ptrs (points pc)) tape th st.
Proof.
  rewrite ransac_run_unfold. intros Hloop.
  eapply (ransac_loop_invariant
            (λ st, search_inv (points pc) (enabled_ptrs (points pc)) tape th mp
                     slab0 sp0 st ∧
                   first_best (points pc) (enabled_ptrs (points pc)) tape th st));
    [|exact Hloop|].
  - intros st' a b c Ha Hb Hc [Hinv Hfirst]. split.
    + by apply search_inv_next.
    + by eapply first_best_next.
  - split; [apply search_inv_initial|apply first_best_initial].
Qed.

Lemma ransac_run_budget tape ni th mp slab0 sp0 pc k st pc' :
  ransac_run tape ni th mp slab0 sp0 pc = Some ((k, st), pc') →
  enabled_ptrs (points pc) ≠ [] →
  length (tried st) = Z.to_nat ni ∧ rng st = 3 * Z.to_nat ni.
Proof.
  intros Hrun Hne.
  destruct (ransac_run_first_best _ _ _ _ _ _ _ _ _ _ Hrun) as [_ [Hrng _]].
  rewrite ransac_run_unfold in Hrun.
  apply (ransac_loop_Some _ _ _ _ slab0 sp0) in Hrun
    as (_ & [(He & _)|(_ & _ & Hlen & _)]); [done|].
  simpl in Hlen. split; [done|]. by rewrite Hrng, Hlen.
Qed.

(** X1: the count ransac returns is the best one among the candidates it
    examined: no candidate above min_points has a larger count, and a
    positive result is the count of one of them.  With an enabled point the
    call examines exactly num_iters candidates, three draws each: it never
    stops early on a good candidate and never retries a poor one. *)
Theorem ransac_returns_best_candidate tape ni th mp slab0 sp0 pc k st pc' :
  ransac_run tape ni th mp slab0 sp0 pc = Some ((k, st), pc') →
  (∀ n, n ∈ tried st → (mp < n)%Z → (n ≤ k)%Z) ∧
  ((0 < k)%Z → k ∈ tried st) ∧
  (enabled_ptrs (points pc) ≠ [] →
   length (tried st) = Z.to_nat ni ∧ rng st = 3 * Z.to_nat ni).
Proof.
  intros Hrun.
  pose proof Hrun as (_ & -> & _ & Hinv)%ransac_run_Some.
  split; [|split].
  - intros n Hn Hmp. destruct Hinv as (_ & Htried & _).
    by apply (proj1 (Forall_forall _ _) Htried) in Hn as [_ Hn%(λ H, H Hmp)].
  - intros Hk. by destruct (search_inv_accepted _ _ _ _ _ _ _ _ Hinv Hk) as (_ & ? & _).
  - by eapply ransac_run_budget.
Qed.

(** X2: over a whole call the first candidate found wins ties: when ransac
    returns k > 0, the slab and the points it hands back are those of the
    first iteration whose count reached k; every earlier candidate had a
    smaller count. *)
Theorem ransac_first_found_wins tape ni th mp slab0 sp0 pc k st pc' :
  ransac_run tape ni th mp slab0 sp0 pc = Some ((k, st), pc') →
  (0 < k)%Z →
  ∃ j a b c,
    tried st !! j = Some k ∧
    (∀ i n, i < j → tried st !! i = Some n → (n < k)%Z) ∧
    picked (points pc) (enabled_ptrs (points pc)) tape (3 * j) = Some a ∧
    picked (points pc) (enabled_ptrs (points pc)) tape (S (3 * j)) = Some b ∧
    picked (points pc) (enabled_ptrs (points pc)) tape (S (S (3 * j))) = Some c ∧
    slab_points st
    = inliers (points pc) (candidate_slab th a b c) (enabled_ptrs (points pc)) ∧
    plane (slab st) = fromThreePoints a b c.
Proof.
  intros Hrun Hk.
  pose proof Hrun as (_ & -> & _)%ransac_run_Some.
  destruct (ransac_run_first_best _ _ _ _ _ _ _ _ _ _ Hrun)
    as [_ [_ [Hz|Hbest]]]; [lia|done].
Qed.

(** X3: the count ransac returns is never negative and never more than the
    number of enabled points, hence of points. *)
Theorem ransac_count_at_most_enabled tape ni th mp slab0 sp0 pc k s ps pc' :
  ransac tape ni th mp slab0 sp0 pc = Some ((k, s, ps), pc') →
  (0 ≤ k ≤ Z.of_nat (length (enabled_ptrs (points pc))))%Z ∧
  length (enabled_ptrs (points pc)) ≤ length (points pc).
Proof.
  intros (st & (_ & -> & _ & Hinv)%ransac_run_Some & _)%ransac_Some.
  split; [|apply length_enabled_ptrs].
  destruct (decide (maxPoints st = 0%Z)) as [->|Hnz]; [lia|].
  assert (0 < maxPoints st)%Z as Hpos by (destruct Hinv as [? _]; lia).
  destruct (search_inv_accepted _ _ _ _ _ _ _ _ Hinv Hpos)
    as (_ & _ & Hlen & Hps & _).
  split; [lia|]. rewrite Hlen, Hps. unfold inliers.
  pose proof (length_filter (λ p, inside (points pc) (slab st) p)
                (enabled_ptrs (points pc))). lia.
Qed.

(** X4: a call of ransac is defined when the cloud has at most 2^31 enabled
    points and num_iters fits an int; it then returns the cloud untouched. *)
Theorem ransac_defined_within_int_range tape ni th mp slab0 sp0 pc :
  (Z.of_nat (length (enabled_ptrs (points pc))) ≤ 2 ^ 31)%Z →
  (ni ≤ Machine.INT_MAX)%Z →
  ∃ k s ps, ransac tape ni th mp slab0 sp0 pc = Some ((k, s, ps), pc).
Proof.
  intros Hsz Hni.
  destruct (ransac_run_total tape ni th mp slab0 sp0 pc Hsz Hni) as [st Hrun].
  exists (maxPoints st), (slab st), (slab_points st).
  apply ransac_Some. by exists st.
Qed.

(** X5: with an enabled point and num_iters above INT_MAX the call is
    undefined: the int counter of the loop is incremented past INT_MAX
    before the long bound is reached. *)
Theorem ransac_counter_overflows tape ni th mp slab0 sp0 pc :
  enabled_ptrs (points pc) ≠ [] →
  (Machine.INT_MAX < ni)%Z →
  ransac tape ni th mp slab0 sp0 pc = None.
Proof.
  intros Hne Hni. unfold ransac. apply bind_None.
  rewrite ransac_run_unfold. apply ransac_loop_overflow; [done|].
  unfold Machine.INT_MAX in *. lia.
Qed.

Lemma picked_elem pts pp tape cur a :
  picked pts pp tape cur = Some a →
  ∃ p, p ∈ pp ∧ position <$> pts !! p = Some a.
Proof.
  unfold picked. destruct (pp !! _) as [p|] eqn:Hp; [|done]. simpl.
  intros Hv. exists p. split; [|done]. by eapply list_elem_of_lookup_2.
Qed.

(** X6: a slab ransac returns with a positive count has the thickness the
    caller asked for, and its plane is the one fitted to the positions of
    three (not necessarily distinct) points that were enabled. *)
Theorem ransac_slab_through_enabled_points
    tape ni th mp slab0 sp0 pc k s ps pc' :
  ransac tape ni th mp slab0 sp0 pc = Some ((k, s, ps), pc') →
  (0 < k)%Z →
  thickness s = th ∧
  ∃ p1 p2 p3 a b c,
    is_enabled (points pc) p1 ∧ position <$> points pc !! p1 = Some a ∧
    is_enabled (points pc) p2 ∧ position <$> points pc !! p2 = Some b ∧
    is_enabled (points pc) p3 ∧ position <$> points pc !! p3 = Some c ∧
    plane s = fromThreePoints a b c.
Proof.
  intros (st & (_ & -> & _ & Hinv)%ransac_run_Some & -> & _)%ransac_Some Hk.
  destruct (search_inv_accepted _ _ _ _ _ _ _ _ Hinv Hk)
    as (_ & _ & _ & _ & Hth & _ & cur & a & b & c & Ha & Hb & Hc & Hpl).
  split; [done|].
  apply picked_elem in Ha as (p1 & H1%elem_of_enabled_ptrs & Ha).
  apply picked_elem in Hb as (p2 & H2%elem_of_enabled_ptrs & Hb).
  apply picked_elem in Hc as (p3 & H3%elem_of_enabled_ptrs & Hc).
  by exists p1, p2, p3, a, b, c.
Qed.

End MoreRansac.

(** * More about ransacMultiple *)

Section MoreExtraction.

Context `{G : Geometry}.

Implicit Types (pc : PointCloud) (pts : list Point) (pp ps : list nat).

Lemma all_enabled_same pc : same_geometry (all_enabled pc) pc.
Proof.
  split; [done|]. split; unfold all_enabled; simpl;
    rewrite <- list_fmap_compose; apply list_fmap_ext; by intros _ [v n e] _.
Qed.

Lemma same_geometry_sym pc1 pc2 : same_geometry pc1 pc2 → same_geometry pc2 pc1.
Proof. by intros (? & ? & ?). Qed.

Lemma same_geometry_lengths pc1 pc2 :
  same_geometry pc1 pc2 → length (points pc1) = length (points pc2).
Proof.
  intros (_ & H & _). apply (f_equal length) in H.
  by rewrite !length_fmap in H.
Qed.

Lemma all_enabled_is_enabled pc p :
  is_enabled (points (all_enabled pc)) p ↔ p < length (points pc).
Proof.
  unfold is_enabled, all_enabled. simpl. rewrite list_lookup_fmap. split.
  - destruct (points pc !! p) eqn:Hp; [|done]. intros _. by eapply lookup_lt_Some.
  - intros [q ->]%lookup_lt_is_Some_2. done.
Qed.

Lemma NoDup_enabled pts : NoDup (enabled_ptrs pts).
Proof. apply NoDup_filter, NoDup_seq. Qed.

Lemma enabled_ptrs_without ps pc :
  enabled_ptrs (points (without ps pc))
  = filter (λ p, p ∉ ps) (enabled_ptrs (points pc)).
Proof.
  unfold enabled_ptrs. rewrite without_length, list_filter_filter.
  apply list_filter_iff. intros p. rewrite without_is_enabled.
  rewrite andb_True, negb_True, bool_decide_spec. tauto.
Qed.

(** Removing a duplicate-free part of a list shortens it by that much. *)
Lemma length_filter_without (l ps : list nat) :
  NoDup ps → ps ⊆ l →
  length (filter (λ p, p ∉ ps) l) + length ps ≤ length l.
Proof.
  intros Hnd Hsub.
  assert (length ps ≤ length (filter (λ p, p ∈ ps) l)) as Hle.
  { apply submseteq_length, NoDup_submseteq; [done|].
    intros p Hp. apply list_elem_of_filter. split; [done|by apply Hsub]. }
  pose proof (filter_app_complement (λ p, p ∈ ps) l) as Hperm.
  apply Permutation_length in Hperm. rewrite length_app in Hperm. lia.
Qed.

Section Rounds.

Variables (tapes : nat → nat → Z) (ni : Z) (th : Real) (mp : Z).

(** What an accepted round recorded. *)
Lemma accepted_round n i pc log pc' rd :
  extraction tapes ni th mp n i pc log pc' → rd ∈ log → accepted rd →
  (Z.max mp 0 < Z.of_nat (length (r_points rd)))%Z ∧
  thickness (r_slab rd) = th.
Proof.
  assert (∀ tape pc k st pc',
    ransac_run tape ni th mp Slab_default [] pc = Some ((k, st), pc') →
    (0 < k)%Z →
    (Z.max mp 0 < Z.of_nat (length (slab_points st)))%Z ∧
    thickness (slab st) = th) as Hround.
  { clear. intros tape pc k st pc' (_ & -> & _ & Hinv)%ransac_run_Some Hk.
    destruct (search_inv_accepted _ _ _ _ _ _ _ _ Hinv Hk)
      as (Hmp & _ & Hlen & _ & Hth & _).
    split; [lia|done]. }
  induction 1 as [i pc|n i pc k st Hrun Hk|n i pc k st rest pc' Hrun Hk Hext IH];
    intros Hrd Hacc.
  - by apply elem_of_nil in Hrd.
  - apply list_elem_of_singleton in Hrd as ->.
    apply accepted_round_of in Hacc. lia.
  - apply elem_of_cons in Hrd as [->|Hrd]; [by eapply Hround|by apply IH].
Qed.

(** A point is enabled after the loop exactly when it was enabled before
    and no accepted round took it. *)
Lemma extraction_flags n i pc log pc' p :
  extraction tapes ni th mp n i pc log pc' →
  is_enabled (points pc') p ↔
  is_enabled (points pc) p ∧ ∀ l, l ∈ inlier_sets log → p ∉ l.
Proof.
  induction 1 as [i pc|n i pc k st Hrun Hk|n i pc k st rest pc' Hrun Hk Hext IH].
  - split; [|by intros [? _]]. intros Hp. split; [done|].
    by intros l ?%elem_of_nil.
  - rewrite inlier_sets_cons_rejected by (rewrite accepted_round_of; lia).
    split; [|by intros [? _]]. intros Hp. split; [done|].
    by intros l ?%elem_of_nil.
  - rewrite inlier_sets_cons_accepted by (by apply accepted_round_of).
    rewrite IH, without_is_enabled, andb_True, negb_True, bool_decide_spec.
    simpl. split.
    + intros [[Hen Hno] Hrest]. split; [done|].
      by intros l [->|Hl]%elem_of_cons; [|apply Hrest].
    + intros [Hen Hall]. split; [split; [done|]|].
      * apply Hall, list_elem_of_here.
      * intros l Hl. by apply Hall, list_elem_of_further.
Qed.

(** The inliers taken by the accepted rounds and the points still enabled
    after the loop fit in the points enabled before it. *)
Lemma extraction_total_inliers n i pc log pc' :
  extraction tapes ni th mp n i pc log pc' →
  total_inliers log + length (enabled_ptrs (points pc'))
  ≤ length (enabled_ptrs (points pc)).
Proof.
  unfold total_inliers.
  induction 1 as [i pc|n i pc k st Hrun Hk|n i pc k st rest pc' Hrun Hk Hext IH].
  - done.
  - by rewrite inlier_sets_cons_rejected by (rewrite accepted_round_of; lia).
  - rewrite inlier_sets_cons_accepted by (by apply accepted_round_of).
    rewrite enabled_ptrs_without in IH.
    pose proof Hrun as (_ & -> & _ & Hinv)%ransac_run_Some.
    destruct (search_inv_accepted _ _ _ _ _ _ _ _ Hinv Hk)
      as (_ & _ & _ & Hps & _).
    assert (NoDup (slab_points st)) as Hnd
      by (rewrite Hps; apply NoDup_filter, NoDup_enabled).
    assert (slab_points st ⊆ enabled_ptrs (points pc)) as Hsub
      by (rewrite Hps; apply inliers_subseteq).
    pose proof (length_filter_without _ _ Hnd Hsub) as Hcount.
    change (sum_list (length <$> r_points (round_of (maxPoints st) st)
                                 :: inlier_sets rest))
      with (length (slab_points st) + sum_list (length <$> inlier_sets rest)).
    lia.
Qed.

End Rounds.

Lemma sum_list_at_least (c : nat) (ls : list (list nat)) :
  Forall (λ l, c ≤ length l) ls → c * length ls ≤ sum_list (length <$> ls).
Proof.
  induction 1 as [|l ls Hl _ IH]; [simpl; lia|].
  rewrite fmap_cons.
  change (sum_list (length l :: (length <$> ls)))
    with (length l + sum_list (length <$> ls)).
  simpl length. nia.
Qed.

(** X7: ransacMultiple writes nothing but enabled flags: on return the
    cloud has the same points in the same order with the same positions and
    normals, and the same bounding box. *)
Theorem ransacMultiple_only_writes_flags
    tapes np ni th mp slabs pc r pc' :
  ransacMultiple tapes np ni th mp slabs pc = Some (r, pc') →
  same_geometry pc' pc ∧ length (points pc') = length (points pc).
Proof.
  destruct r as [k slabs'].
  intros (log & (Hext & _)%ransacMultiple_run_Some)%ransacMultiple_Some.
  apply extraction_frame in Hext as [Hsame _].
  assert (same_geometry pc' pc) as H
    by (eapply same_geometry_trans; [exact Hsame|apply all_enabled_same]).
  split; [done|by apply same_geometry_lengths].
Qed.

(** X8: on return from ransacMultiple a point is enabled exactly when it is
    an inlier of none of the accepted slabs: the flags left behind mark the
    points no returned plane explains. *)
Theorem ransacMultiple_leaves_unexplained_enabled
    tapes np ni th mp slabs pc k slabs' log pc' p :
  ransacMultiple_run tapes np ni th mp slabs pc
  = Some ((k, slabs', log), pc') →
  p < length (points pc) →
  is_enabled (points pc') p ↔ ∀ l, l ∈ inlier_sets log → p ∉ l.
Proof.
  intros (Hext & _)%ransacMultiple_run_Some Hp.
  rewrite (extraction_flags _ _ _ _ _ _ _ _ _ _ Hext), all_enabled_is_enabled.
  tauto.
Qed.

(** X9: the slabs ransacMultiple returns are bounded by the cloud and not
    only by num_planes: every returned slab took more than max(min_points, 0)
    points of its own, so (max(min_points, 0) + 1) times the number of slabs
    is at most the number of inliers taken, which is at most the number of
    points. *)
Theorem ransacMultiple_slabs_bounded_by_points
    tapes np ni th mp slabs pc k slabs' log pc' :
  ransacMultiple_run tapes np ni th mp slabs pc
  = Some ((k, slabs', log), pc') →
  (Z.to_nat (Z.max mp 0) + 1) * length slabs' ≤ total_inliers log ∧
  total_inliers log ≤ length (points pc).
Proof.
  intros (Hext & -> & _)%ransacMultiple_run_Some. split.
  - replace (length (pushed log)) with (length (inlier_sets log))
      by (unfold inlier_sets, pushed; by rewrite !length_fmap).
    apply sum_list_at_least, Forall_forall. intros l Hl.
    unfold inlier_sets in Hl.
    apply list_elem_of_fmap in Hl as (rd & -> & [Hacc Hrd]%list_elem_of_filter).
    destruct (accepted_round _ _ _ _ _ _ _ _ _ rd Hext Hrd Hacc) as [Hlen _].
    lia.
  - pose proof (extraction_total_inliers _ _ _ _ _ _ _ _ _ Hext) as Htot.
    pose proof (length_enabled_ptrs (points (all_enabled pc))) as Hle.
    rewrite (same_geometry_lengths _ _ (all_enabled_same pc)) in Hle.
    lia.
Qed.

(** X10: calls of ransacMultiple do not interfere: a call on the cloud an
    earlier call left behind gives what it would give on the cloud the
    earlier call started from, result and final cloud alike. *)
Theorem ransacMultiple_after_ransacMultiple
    tapes1 np1 ni1 th1 mp1 slabs1 pc r1 pc1 tapes2 np2 ni2 th2 mp2 slabs2 :
  ransacMultiple tapes1 np1 ni1 th1 mp1 slabs1 pc = Some (r1, pc1) →
  ransacMultiple tapes2 np2 ni2 th2 mp2 slabs2 pc1
  = ransacMultiple tapes2 np2 ni2 th2 mp2 slabs2 pc.
Proof.
  destruct r1 as [k slabs'].
  intros (log & (Hext & _)%ransacMultiple_run_Some)%ransacMultiple_Some.
  apply extraction_frame in Hext as [Hsame _].
  assert (same_geometry pc1 pc) as H
    by (eapply same_geometry_trans; [exact Hsame|apply all_enabled_same]).
  unfold ransacMultiple, bind.
  by rewrite !ransacMultiple_run_unfold, (all_enabled_same_geometry _ _ H).
Qed.

(** X11: asked for no plane or for no iteration, ransacMultiple returns 0
    and no slab, and still sets the enabled flag of every point. *)
Theorem ransacMultiple_nothing_asked tapes np ni th mp slabs pc :
  (np ≤ 0)%Z ∨ (ni ≤ 0)%Z →
  ransacMultiple tapes np ni th mp slabs pc = Some ((0%Z, []), all_enabled pc).
Proof.
  intros Hno. apply ransacMultiple_Some.
  destruct (Z.to_nat np) as [|n] eqn:Hn.
  - exists []. apply ransacMultiple_run_Some. rewrite Hn.
    split; [constructor|done].
  - assert (ni ≤ 0)%Z as Hni by lia.
    exists [round_of 0 (initial_search Slab_default [])].
    apply ransacMultiple_run_Some. rewrite Hn. split; [|done].
    eapply extraction_break; [|done]. by apply ransac_run_no_iters.
Qed.

End MoreExtraction.

(** * Construction, the bounding box and loading *)

Section MoreStore.

Context `{St : Store}.

Implicit Types (pc : PointCloud) (pts : list Point) (lines : list string).

(** ** recomputeAABB *)

Lemma recomputeAABB_positions pc :
  bbox (recomputeAABB pc)
  = foldl aabb_merge aabb_null (position <$> points pc).
Proof. unfold recomputeAABB. simpl. by rewrite foldl_fmap. Qed.

Lemma recomputeAABB_same_geometry pc1 pc2 :
  same_geometry pc1 pc2 → bbox (recomputeAABB pc1) = bbox (recomputeAABB pc2).
Proof. intros (_ & Hpos & _). by rewrite !recomputeAABB_positions, Hpos. Qed.

Lemma bbox_current_recomputeAABB pc : bbox_current (recomputeAABB pc).
Proof. done. Qed.

Lemma ransacMultiple_same_geometry tapes np ni th mp slabs pc r pc' :
  ransacMultiple tapes np ni th mp slabs pc = Some (r, pc') →
  same_geometry pc' pc.
Proof.
  destruct r as [k slabs'].
  intros (log & (Hext & _)%ransacMultiple_run_Some)%ransacMultiple_Some.
  apply extraction_frame in Hext as [Hsame _].
  eapply same_geometry_trans; [exact Hsame|apply all_enabled_same].
Qed.

(** X12: plane extraction never makes the bounding box stale: if the box
    of the cloud is the one recomputeAABB gives, it still is after
    ransacMultiple, and recomputing it then changes nothing. *)
Theorem ransacMultiple_keeps_box_current tapes np ni th mp slabs pc r pc' :
  bbox_current pc →
  ransacMultiple tapes np ni th mp slabs pc = Some (r, pc') →
  bbox_current pc' ∧ recomputeAABB pc' = pc'.
Proof.
  intros Hcur Hsame%ransacMultiple_same_geometry.
  assert (bbox_current pc') as Hcur'.
  { unfold bbox_current in *.
    rewrite (recomputeAABB_same_geometry _ _ Hsame), <- Hcur.
    by destruct Hsame as [? _]. }
  split; [done|]. apply pointcloud_eq; [done|]. by rewrite <- Hcur'.
Qed.

(** ** The constructor from two arrays *)

Lemma push_points_spec n i positions normals pts :
  i + n ≤ length positions → i + n ≤ length normals →
  push_points n i positions normals pts
  = Some (pts ++ zip_with Point_new (take n (drop i positions))
                    (take n (drop i normals))).
Proof.
  revert i pts. induction n as [|n IH]; intros i pts Hp Hn; simpl.
  - by rewrite app_nil_r.
  - destruct (lookup_lt_is_Some_2 positions i) as [p Hpi]; [lia|].
    destruct (lookup_lt_is_Some_2 normals i) as [nr Hni]; [lia|].
    rewrite Hpi, Hni, IH by lia.
    rewrite (drop_S _ _ _ Hpi), (drop_S _ _ _ Hni). simpl.
    by rewrite <- app_assoc.
Qed.

(** X13: the constructor from positions and normals stops on its assertion
    exactly when the two arrays differ in length, and never reads either
    array out of range.  Otherwise the cloud it builds holds one point per
    index, in order, with the given position and normal and the flag the
    Point constructor sets, and its box is current. *)
Theorem PointCloud_of_arrays_spec positions normals :
  (PointCloud_of_arrays positions normals = AssertionFailed
   ↔ length positions ≠ length normals) ∧
  PointCloud_of_arrays positions normals ≠ OutOfRange ∧
  (∀ pc,
     PointCloud_of_arrays positions normals = Built pc →
     position <$> points pc = positions ∧
     normal <$> points pc = normals ∧
     Forall (λ p, enabled p = Point_enabled) (points pc) ∧
     bbox_current pc).
Proof.
  unfold PointCloud_of_arrays.
  destruct (decide (length positions = length normals)) as [Hlen|Hlen].
  - rewrite push_points_spec by lia. rewrite !drop_0, !take_ge by lia.
    split; [done|]. split; [done|]. intros pc [= <-]. simpl.
    split; [|split; [|split]].
    + apply fmap_zip_with_l; [done|lia].
    + apply fmap_zip_with_r; [done|lia].
    + apply Forall_forall. intros p Hp.
      rewrite zip_with_zip in Hp.
      by apply list_elem_of_fmap in Hp as ([v n] & -> & _).
    + done.
  - split; [done|]. split; [done|]. done.
Qed.

(** ** load *)

Lemma data_lines_cons l lines :
  data_lines (l :: lines)
  = if blank l then data_lines lines else l :: data_lines lines.
Proof.
  unfold data_lines. rewrite filter_cons.
  destruct (blank l); destruct (decide _) as [Hd|Hd]; try done.
  exfalso. apply Hd. by intros [].
Qed.

Lemma data_lines_app lines1 lines2 :
  data_lines (lines1 ++ lines2) = data_lines lines1 ++ data_lines lines2.
Proof. apply filter_app. Qed.

Lemma data_lines_idemp lines : data_lines (data_lines lines) = data_lines lines.
Proof.
  induction lines as [|l lines IH]; [done|].
  rewrite data_lines_cons. destruct (blank l) eqn:Hb; [done|].
  by rewrite data_lines_cons, Hb, IH.
Qed.

Lemma load_lines_cons l lines pts :
  load_lines (l :: lines) pts
  = if blank l then load_lines lines pts
    else match read_point (trimWhitespace l) with
         | Some p => load_lines lines (pts ++ [p])
         | None => (false, pts)
         end.
Proof. done. Qed.

Lemma read_all_cons l lines :
  read_all (l :: lines)
  = if blank l then read_all lines
    else match read_point (trimWhitespace l) with
         | Some p => p :: read_all lines
         | None => read_all lines
         end.
Proof.
  unfold read_all. rewrite data_lines_cons. destruct (blank l); [done|].
  simpl. by destruct (read_point (trimWhitespace l)).
Qed.

Lemma readable_cons l lines :
  readable (l :: lines)
  ↔ (blank l ∨ is_Some (read_point (trimWhitespace l))) ∧ readable lines.
Proof.
  unfold readable. rewrite data_lines_cons. destruct (blank l).
  - split; [by intros ?; split; [left|]|by intros [_ ?]].
  - rewrite Forall_cons. split; intros [H ?]; (split; [|done]).
    + by right.
    + by destruct H.
Qed.

Lemma readable_nil : readable [].
Proof. apply Forall_nil_2. Qed.

Lemma length_read_all lines :
  readable lines → length (read_all lines) = length (data_lines lines).
Proof.
  induction lines as [|l lines IH]; [done|].
  rewrite readable_cons, read_all_cons, data_lines_cons.
  intros [Hl Hall]. destruct (blank l); [by apply IH|].
  destruct Hl as [[]|[p ->]]. simpl. by rewrite IH.
Qed.

Lemma load_lines_readable lines pts :
  readable lines → load_lines lines pts = (true, pts ++ read_all lines).
Proof.
  revert pts. induction lines as [|l lines IH]; intros pts Hall.
  - simpl. by rewrite app_nil_r.
  - rewrite load_lines_cons, read_all_cons.
    apply readable_cons in Hall as [Hl Hall].
    destruct (blank l); [by apply IH|].
    destruct Hl as [[]|[p Hp]]. rewrite Hp.
    rewrite IH by done. by rewrite <- app_assoc.
Qed.

Lemma load_lines_true lines pts pts' :
  load_lines lines pts = (true, pts') → readable lines.
Proof.
  revert pts. induction lines as [|l lines IH]; intros pts.
  - intros _. apply readable_nil.
  - rewrite load_lines_cons, readable_cons.
    destruct (blank l); [intros ?%IH; split; [by left|done]|].
    destruct (read_point (trimWhitespace l)) as [p|] eqn:Hp; [|done].
    intros Hrest%IH. split; [by right|done].
Qed.

Lemma load_lines_false lines pts pts' :
  load_lines lines pts = (false, pts') →
  ∃ before bad after,
    lines = before ++ bad :: after ∧
    ¬ blank bad ∧ read_point (trimWhitespace bad) = None ∧
    readable before ∧ pts' = pts ++ read_all before.
Proof.
  revert pts. induction lines as [|l lines IH]; intros pts; [done|].
  rewrite load_lines_cons. destruct (blank l) eqn:Hb.
  - intros (before & bad & after & -> & Hbad & Hnone & Hall & ->)%IH.
    exists (l :: before), bad, after.
    rewrite readable_cons, read_all_cons, Hb.
    split; [done|]. split; [done|]. split; [done|].
    split; [|done]. split; [by left|done].
  - destruct (read_point (trimWhitespace l)) as [p|] eqn:Hp.
    + intros (before & bad & after & -> & Hbad & Hnone & Hall & ->)%IH.
      exists (l :: before), bad, after.
      rewrite readable_cons, read_all_cons, Hb, Hp.
      split; [done|]. split; [done|]. split; [done|]. split.
      * split; [by right|done].
      * by rewrite <- app_assoc.
    + intros [= <-]. exists [], l, lines.
      split; [done|]. split; [rewrite Hb; by intros []|]. split; [done|].
      split; [apply readable_nil|]. by rewrite app_nil_r.
Qed.

Lemma load_lines_prefix lines pts : pts `prefix_of` (load_lines lines pts).2.
Proof.
  destruct (load_lines lines pts) as [[] pts'] eqn:Hload; simpl.
  - rewrite (load_lines_readable lines pts) in Hload
      by (by eapply load_lines_true).
    injection Hload as <-. by apply prefix_app_r.
  - apply load_lines_false in Hload as (? & ? & ? & _ & _ & _ & _ & ->).
    by apply prefix_app_r.
Qed.

Lemma load_lines_app lines1 lines2 pts :
  load_lines (lines1 ++ lines2) pts
  = if (load_lines lines1 pts).1
    then load_lines lines2 (load_lines lines1 pts).2
    else load_lines lines1 pts.
Proof.
  revert pts. induction lines1 as [|l lines1 IH]; intros pts; [done|].
  rewrite <- app_comm_cons, !load_lines_cons.
  destruct (blank l); [apply IH|].
  destruct (read_point (trimWhitespace l)); [apply IH|done].
Qed.

Lemma load_lines_data_lines lines pts :
  load_lines (data_lines lines) pts = load_lines lines pts.
Proof.
  revert pts. induction lines as [|l lines IH]; intros pts; [done|].
  rewrite data_lines_cons, (load_lines_cons l lines).
  destruct (blank l) eqn:Hb; [apply IH|].
  rewrite load_lines_cons, Hb.
  destruct (read_point (trimWhitespace l)); [apply IH|done].
Qed.

(** X14: load never loses or changes a point the cloud already has: the
    points before the call are a prefix of the points after it, whether it
    returns true or false; if the file cannot be opened the cloud is as it
    was. *)
Theorem load_keeps_points file pc :
  points pc `prefix_of` points (load file pc).2 ∧
  (file = None → load file pc = (false, pc)).
Proof.
  split; [|by intros ->].
  destruct file as [lines|]; simpl; [|done].
  pose proof (load_lines_prefix lines (points pc)) as Hpre.
  by destruct (load_lines lines (points pc)) as [[] pts'].
Qed.

(** X15: load returns true exactly when at least three values can be read
    from every line that is not blank after trimming.  It then appends one
    point per such line, in file order, and the box is recomputed over all
    the points. *)
Theorem load_succeeds_iff_readable lines pc :
  ((load (Some lines) pc).1 = true ↔ readable lines) ∧
  (readable lines →
   load (Some lines) pc
   = (true, recomputeAABB {| points := points pc ++ read_all lines;
                             bbox := bbox pc |}) ∧
   length (read_all lines) = length (data_lines lines) ∧
   bbox_current (load (Some lines) pc).2).
Proof.
  split.
  - unfold load. split.
    + destruct (load_lines lines (points pc)) as [[] pts'] eqn:Hload; [|done].
      intros _. by eapply load_lines_true.
    + intros Hall. by rewrite (load_lines_readable _ _ Hall).
  - intros Hall. unfold load. rewrite (load_lines_readable _ _ Hall). simpl.
    split; [done|]. split; [by apply length_read_all|done].
Qed.

(** X16: when load stops at a line it cannot read a point from, it returns
    false with the points of the lines before that one already appended and
    the box left as it was before the call, not recomputed. *)
Theorem load_failure_keeps_partial lines pc pc' :
  load (Some lines) pc = (false, pc') →
  ∃ before bad after,
    lines = before ++ bad :: after ∧
    ¬ blank bad ∧ read_point (trimWhitespace bad) = None ∧
    readable before ∧
    points pc' = points pc ++ read_all before ∧
    length (read_all before) = length (data_lines before) ∧
    bbox pc' = bbox pc.
Proof.
  unfold load.
  destruct (load_lines lines (points pc)) as [[] pts'] eqn:Hload; [done|].
  intros [= <-]. simpl.
  apply load_lines_false in Hload
    as (before & bad & after & -> & Hbad & Hnone & Hall & ->).
  exists before, bad, after.
  split; [done|]. split; [done|]. split; [done|]. split; [done|].
  split; [done|]. split; [by apply length_read_all|done].
Qed.

(** X17: lines that are blank after trimming play no part: loading a file
    and loading it with those lines removed give the same answer and the
    same cloud. *)
Theorem load_skips_blank_lines lines pc :
  load (Some (data_lines lines)) pc = load (Some lines) pc.
Proof. unfold load. by rewrite load_lines_data_lines. Qed.

(** X18: loading one file after another.  When the first file loads, the
    second load answers as one load of the two files joined would, and
    leaves the same points; if it answers true the two clouds are the same.
    (If it answers false they differ in the box: the joined load never
    recomputed it.) *)
Theorem load_after_load lines1 lines2 pc pc1 :
  load (Some lines1) pc = (true, pc1) →
  (load (Some (lines1 ++ lines2)) pc).1 = (load (Some lines2) pc1).1 ∧
  points (load (Some (lines1 ++ lines2)) pc).2
  = points (load (Some lines2) pc1).2 ∧
  ((load (Some lines2) pc1).1 = true →
   load (Some (lines1 ++ lines2)) pc = load (Some lines2) pc1).
Proof.
  unfold load. rewrite load_lines_app.
  destruct (load_lines lines1 (points pc)) as [[] pts1] eqn:H1; [|done].
  intros [= <-]. simpl.
  destruct (load_lines lines2 pts1) as [[] pts2]; simpl; done.
Qed.

(** X19: recomputeAABB reads positions only.  It leaves the points as they
    are, forgets the box it finds, and gives the same box for two clouds
    whose points have the same positions in the same order, whatever their
    normals and enabled flags: a disabled point still widens the box.  A
    second call in a row changes nothing. *)
Theorem recomputeAABB_reads_positions_only pc1 pc2 :
  position <$> points pc1 = position <$> points pc2 →
  bbox (recomputeAABB pc1) = bbox (recomputeAABB pc2) ∧
  points (recomputeAABB pc1) = points pc1 ∧
  recomputeAABB (recomputeAABB pc1) = recomputeAABB pc1.
Proof.
  intros Hpos. split; [|done].
  by rewrite !recomputeAABB_positions, Hpos.
Qed.

End MoreStore.

(** * The further properties on concrete clouds and files *)

Section MoreExamples.

Import Exact Runs.

Abbreviation sq := square_and_outlier.

(** Three iterations on the square with an outlier examine three
    candidates. *)
Lemma ransac_returns_best_candidate_witness :
  ∃ st,
    ransac_run (G := Exact.geometry) tape012 3 1%Z 2 Slab_default [] sq
    = Some ((4%Z, st), sq) ∧
    enabled_ptrs (points sq) ≠ [] ∧
    length (tried st) = 3.
Proof.
  assert (ransac_run (G := Exact.geometry) tape012 3 1%Z 2 Slab_default [] sq
          = square_run) as H by reflexivity.
  unfold square_run in H.
  assert (enabled_ptrs (points sq) ≠ []) as Hne by discriminate.
  eexists. split; [exact H|]. split; [exact Hne|].
  exact (proj1 (proj2 (proj2
    (ransac_returns_best_candidate _ _ _ _ _ _ _ _ _ _ H)) Hne)).
Defined.

(** The square is found by the first of them. *)
Lemma ransac_first_found_wins_witness :
  ∃ st j,
    ransac_run (G := Exact.geometry) tape012 3 1%Z 2 Slab_default [] sq
    = Some ((4%Z, st), sq) ∧
    (0 < 4)%Z ∧
    tried st !! j = Some 4%Z.
Proof.
  assert (ransac_run (G := Exact.geometry) tape012 3 1%Z 2 Slab_default [] sq
          = square_run) as H by reflexivity.
  unfold square_run in H.
  assert (0 < 4)%Z as Hk by lia.
  destruct (ransac_first_found_wins _ _ _ _ _ _ _ _ _ _ H Hk)
    as (j & a & b & c & Hj & _).
  eexists _, j. split; [exact H|]. split; [exact Hk|exact Hj].
Defined.

(** Four inliers among five enabled points. *)
Lemma ransac_count_at_most_enabled_witness :
  ransac (G := Exact.geometry) tape012 3 1%Z 2 Slab_default [] sq
  = Some ((4%Z, slab square_search, [0; 1; 2; 3]), sq) ∧
  (0 ≤ 4 ≤ Z.of_nat (length (enabled_ptrs (points sq))))%Z.
Proof.
  assert (ransac (G := Exact.geometry) tape012 3 1%Z 2 Slab_default [] sq
          = Some ((4%Z, slab square_search, [0; 1; 2; 3]), sq)) as H
    by reflexivity.
  split; [exact H|].
  exact (proj1 (ransac_count_at_most_enabled _ _ _ _ _ _ _ _ _ _ _ H)).
Defined.

(** Five points and three iterations are within range. *)
Lemma ransac_defined_within_int_range_witness :
  (Z.of_nat (length (enabled_ptrs (points sq))) ≤ 2 ^ 31)%Z ∧
  (3 ≤ Machine.INT_MAX)%Z ∧
  ∃ k s ps,
    ransac (G := Exact.geometry) tape012 3 1%Z 2 Slab_default [] sq
    = Some ((k, s, ps), sq).
Proof.
  assert (Z.of_nat (length (enabled_ptrs (points sq))) ≤ 2 ^ 31)%Z as Hsz
    by (vm_compute; discriminate).
  assert (3 ≤ Machine.INT_MAX)%Z as Hni by (vm_compute; discriminate).
  split; [exact Hsz|]. split; [exact Hni|].
  exact (ransac_defined_within_int_range (G := Exact.geometry)
           tape012 3%Z 1%Z 2%Z Slab_default [] sq Hsz Hni).
Defined.

(** 2^31 iterations on the same cloud are one too many. *)
Lemma ransac_counter_overflows_witness :
  enabled_ptrs (points sq) ≠ [] ∧
  (Machine.INT_MAX < 2147483648)%Z ∧
  ransac (G := Exact.geometry) tape012 2147483648 1%Z 2 Slab_default [] sq
  = None.
Proof.
  assert (enabled_ptrs (points sq) ≠ []) as Hne by discriminate.
  assert (Machine.INT_MAX < 2147483648)%Z as Hni by reflexivity.
  split; [exact Hne|]. split; [exact Hni|].
  exact (ransac_counter_overflows (G := Exact.geometry)
           tape012 2147483648%Z 1%Z 2%Z Slab_default [] sq Hne Hni).
Defined.

(** The slab of the square has the thickness asked for. *)
Lemma ransac_slab_through_enabled_points_witness :
  ransac (G := Exact.geometry) tape012 3 1%Z 2 Slab_default [] sq
  = Some ((4%Z, slab square_search, [0; 1; 2; 3]), sq) ∧
  (0 < 4)%Z ∧
  thickness (slab square_search) = 1%Z.
Proof.
  assert (ransac (G := Exact.geometry) tape012 3 1%Z 2 Slab_default [] sq
          = Some ((4%Z, slab square_search, [0; 1; 2; 3]), sq)) as H
    by reflexivity.
  assert (0 < 4)%Z as Hk by lia.
  split; [exact H|]. split; [exact Hk|].
  exact (proj1 (ransac_slab_through_enabled_points _ _ _ _ _ _ _ _ _ _ _ H Hk)).
Defined.

(** Extracting from the square and the triangle moves no point. *)
Lemma ransacMultiple_only_writes_flags_witness :
  ∃ r pc',
    ransacMultiple (G := Exact.geometry) tapes012 3 3 1%Z 0 [] square_and_triangle
    = Some (r, pc') ∧
    same_geometry pc' square_and_triangle.
Proof.
  assert (ransacMultiple (G := Exact.geometry) tapes012 3 3 1%Z 0 [] square_and_triangle
          = (r <~ (λ _, square_extraction) ;; ret (r.1.1, r.1.2)) square_and_triangle) as H
    by reflexivity.
  unfold square_extraction, bind, ret in H.
  eexists _, _. split; [exact H|].
  exact (proj1 (ransacMultiple_only_writes_flags _ _ _ _ _ _ _ _ _ H)).
Defined.

(** Both planes together explain every point: none is left enabled. *)
Lemma ransacMultiple_leaves_unexplained_enabled_witness :
  ∃ slabs' log pc',
    ransacMultiple_run (G := Exact.geometry) tapes012 3 3 1%Z 0 [] square_and_triangle
    = Some ((2%Z, slabs', log), pc') ∧
    4 < length (points square_and_triangle) ∧
    (is_enabled (points pc') 4 ↔ ∀ l, l ∈ inlier_sets log → 4 ∉ l).
Proof.
  assert (ransacMultiple_run (G := Exact.geometry) tapes012 3 3 1%Z 0 [] square_and_triangle
          = square_extraction) as H by reflexivity.
  unfold square_extraction in H.
  assert (4 < length (points square_and_triangle)) as Hp by (simpl; lia).
  eexists _, _, _. split; [exact H|]. split; [exact Hp|].
  exact (ransacMultiple_leaves_unexplained_enabled _ _ _ _ _ _ _ _ _ _ _ 4
           H Hp).
Defined.

(** Two slabs, seven inliers, seven points. *)
Lemma ransacMultiple_slabs_bounded_by_points_witness :
  ∃ slabs' log pc',
    ransacMultiple_run (G := Exact.geometry) tapes012 3 3 1%Z 0 [] square_and_triangle
    = Some ((2%Z, slabs', log), pc') ∧
    total_inliers log ≤ length (points square_and_triangle).
Proof.
  assert (ransacMultiple_run (G := Exact.geometry) tapes012 3 3 1%Z 0 [] square_and_triangle
          = square_extraction) as H by reflexivity.
  unfold square_extraction in H.
  eexists _, _, _. split; [exact H|].
  exact (proj2 (ransacMultiple_slabs_bounded_by_points _ _ _ _ _ _ _ _ _ _ _ H)).
Defined.

(** A second extraction, for one plane, after the first. *)
Lemma ransacMultiple_after_ransacMultiple_witness :
  ∃ r1 pc1,
    ransacMultiple (G := Exact.geometry) tapes012 3 3 1%Z 0 [] square_and_triangle
    = Some (r1, pc1) ∧
    ransacMultiple (G := Exact.geometry) tapes012 1 3 1%Z 2 [] pc1
    = ransacMultiple (G := Exact.geometry) tapes012 1 3 1%Z 2 [] square_and_triangle.
Proof.
  assert (ransacMultiple (G := Exact.geometry) tapes012 3 3 1%Z 0 [] square_and_triangle
          = (r <~ (λ _, square_extraction) ;; ret (r.1.1, r.1.2)) square_and_triangle) as H
    by reflexivity.
  unfold square_extraction, bind, ret in H.
  eexists _, _. split; [exact H|].
  exact (ransacMultiple_after_ransacMultiple (G := Exact.geometry)
           _ _ _ _ _ _ _ _ _ tapes012 1%Z 3%Z 1%Z 2%Z [] H).
Defined.

(** No plane asked of a cloud whose flags are all cleared. *)
Lemma ransacMultiple_nothing_asked_witness :
  ((-1 ≤ 0)%Z ∨ (3 ≤ 0)%Z) ∧
  ransacMultiple (G := Exact.geometry) tapes012 (-1) 3 1%Z 0 []
    square_and_outlier_used
  = Some ((0%Z, []), all_enabled square_and_outlier_used).
Proof.
  assert ((-1 ≤ 0)%Z ∨ (3 ≤ 0)%Z) as H by (left; lia).
  split; [exact H|].
  exact (ransacMultiple_nothing_asked (G := Exact.geometry)
           tapes012 (-1)%Z 3%Z 1%Z 0%Z [] square_and_outlier_used H).
Defined.

(** The square built from its arrays has a current box, and keeps it. *)
Lemma ransacMultiple_keeps_box_current_witness :
  ∃ r pc',
    bbox_current (St := ExactStore.store) square ∧
    ransacMultiple (G := ExactStore.geometry) tapes012 3 3 1%Z 0 [] square
    = Some (r, pc') ∧
    bbox_current (St := ExactStore.store) pc'.
Proof.
  assert (bbox_current (St := ExactStore.store) square) as Hcur by reflexivity.
  assert (ransacMultiple (G := ExactStore.geometry) tapes012 3 3 1%Z 0 []
            square = square_planes) as H by reflexivity.
  unfold square_planes in H.
  eexists _, _. split; [exact Hcur|]. split; [exact H|].
  exact (proj1 (ransacMultiple_keeps_box_current (St := ExactStore.store)
                  _ _ _ _ _ _ _ _ _ Hcur H)).
Defined.

(** Five positions and five normals. *)
Lemma PointCloud_of_arrays_spec_witness :
  PointCloud_of_arrays (St := ExactStore.store) square_positions square_normals
  = Built square ∧
  position <$> points square = square_positions.
Proof.
  assert (PointCloud_of_arrays (St := ExactStore.store)
            square_positions square_normals = Built square) as H
    by reflexivity.
  split; [exact H|].
  exact (proj1 (proj2 (proj2 (PointCloud_of_arrays_spec
                                (St := ExactStore.store)
                                square_positions square_normals)) square H)).
Defined.

(** A path that opens nothing. *)
Lemma load_keeps_points_witness :
  @None (list string) = None ∧
  load (St := ExactStore.store) None square = (false, square).
Proof.
  assert (@None (list string) = None) as H by reflexivity.
  split; [exact H|].
  exact (proj2 (load_keeps_points (St := ExactStore.store) None square) H).
Defined.

(** Three data lines and a blank one. *)
Lemma load_succeeds_iff_readable_witness :
  readable (St := ExactStore.store) ExactStore.three_points ∧
  length (read_all (St := ExactStore.store) ExactStore.three_points) = 3.
Proof.
  assert (readable (St := ExactStore.store) ExactStore.three_points) as H.
  { unfold readable.
    change (data_lines (St := ExactStore.store) ExactStore.three_points)
      with ["0 0 0 0 0 1"; " 1 0 0 "; "0 1 0 0 0 1 9"].
    repeat (apply Forall_cons; split; [by eexists|]). apply Forall_nil_2. }
  split; [exact H|].
  exact (proj1 (proj2 (proj2 (load_succeeds_iff_readable
                                (St := ExactStore.store)
                                ExactStore.three_points nothing) H))).
Defined.

(** The third line of the bad file has two values only. *)
Lemma load_failure_keeps_partial_witness :
  load (St := ExactStore.store) (Some ExactStore.bad_third_line) nothing
  = (false, loaded_bad.2) ∧
  ∃ before bad after, ExactStore.bad_third_line = before ++ bad :: after.
Proof.
  assert (load (St := ExactStore.store) (Some ExactStore.bad_third_line) nothing
          = (false, loaded_bad.2)) as H by reflexivity.
  split; [exact H|].
  destruct (load_failure_keeps_partial (St := ExactStore.store) _ _ _ H)
    as (before & bad & after & Hsplit & _).
  exists before, bad, after. exact Hsplit.
Defined.

(** The good file in two halves. *)
Lemma load_after_load_witness :
  ∃ pc1,
    load (St := ExactStore.store) (Some ["0 0 0 0 0 1"; "   "]) nothing
    = (true, pc1) ∧
    (load (St := ExactStore.store)
       (Some (["0 0 0 0 0 1"; "   "] ++ [" 1 0 0 "; "0 1 0 0 0 1 9"]))
       nothing).1
    = (load (St := ExactStore.store)
         (Some [" 1 0 0 "; "0 1 0 0 0 1 9"]) pc1).1.
Proof.
  assert (∃ pc1,
    load (St := ExactStore.store) (Some ["0 0 0 0 0 1"; "   "]) nothing
    = (true, pc1)) as [pc1 H] by (eexists; reflexivity).
  exists pc1. split; [exact H|].
  exact (proj1 (load_after_load (St := ExactStore.store) _
                  [" 1 0 0 "; "0 1 0 0 0 1 9"] _ _ H)).
Defined.

(** The square with two of its points disabled has the box of the square. *)
Lemma recomputeAABB_reads_positions_only_witness :
  position <$> points (without (G := ExactStore.geometry) [0; 1] square)
  = position <$> points square ∧
  bbox (recomputeAABB (St := ExactStore.store)
          (without (G := ExactStore.geometry) [0; 1] square))
  = bbox (recomputeAABB (St := ExactStore.store) square).
Proof.
  assert (position <$> points (without (G := ExactStore.geometry) [0; 1] square)
          = position <$> points square) as H by reflexivity.
  split; [exact H|].
  exact (proj1 (recomputeAABB_reads_positions_only (St := ExactStore.store)
                  _ _ H)).
Defined.

End MoreExamples.
